(** * The element scraper of [jsforbrowser.js], embedded in Rocq

    The script is one synchronous pass over a rendered document: it asks
    the host for the candidates of a fixed selector, drops the invisible
    ones, resolves a label for each survivor, synthesizes an XPath, and
    pushes one record per survivor on an array that is finally serialized.

    The embedding follows the script function by function. The host (the
    browser's DOM) is a tree of nodes; a node reference is the list of child
    indices that leads to it. Exceptions of the host are a [Throw] result. *)

From Stdlib Require Import String Ascii ZArith List Lia Bool.
From Stdlib Require Import DecimalString DecimalNat.
From stdpp Require Import base option list strings gmap sorting.

Open Scope string_scope.
Open Scope list_scope.

(** ** Strings

    A character is one of the 256 first code points (the Latin-1 range of a
    JavaScript string). *)

Module Str.

(** The white space of [\s] and of [String.prototype.trim] in that range:
    TAB, LF, VT, FF, CR, SPACE and NO-BREAK SPACE. *)
Definition isWhiteSpace (c : ascii) : bool :=
  let n := nat_of_ascii c in
  (Nat.leb 9 n && Nat.leb n 13) || Nat.eqb n 32 || Nat.eqb n 160.

Fixpoint trimStart (s : string) : string :=
  match s with
  | EmptyString => EmptyString
  | String c s' => if isWhiteSpace c then trimStart s' else s
  end.

Fixpoint trimEnd (s : string) : string :=
  match s with
  | EmptyString => EmptyString
  | String c s' =>
      match trimEnd s' with
      | EmptyString => if isWhiteSpace c then EmptyString else String c EmptyString
      | r => String c r
      end
  end.

(** [s.trim()] *)
Definition trim (s : string) : string := trimEnd (trimStart s).

(** [s.replace(/\s+/g, ' ')]: [inRun] tells that the previous character
    belonged to the run of white space being replaced. *)
Fixpoint replaceRuns (inRun : bool) (s : string) : string :=
  match s with
  | EmptyString => EmptyString
  | String c s' =>
      if isWhiteSpace c
      then if inRun then replaceRuns true s' else String " " (replaceRuns true s')
      else String c (replaceRuns false s')
  end.

(** [s.replace(/\s+/g, ' ').trim()] *)
Definition normalize (s : string) : string := trim (replaceRuns false s).

(** The words of a text: its longest runs of characters that are no white
    space, in their order. *)
Fixpoint words (s : string) : list string :=
  match s with
  | EmptyString => []
  | String c s' =>
      if isWhiteSpace c then words s'
      else match words s', s' with
           | w :: ws, String c' _ =>
               if isWhiteSpace c' then String c EmptyString :: w :: ws
               else String c w :: ws
           | _, _ => [String c EmptyString]
           end
  end.

(** [c.toLowerCase()]: the letters A-Z, and in the upper half the letters
    U+00C0-U+00DE but the multiplication sign U+00D7. *)
Definition lowerChar (c : ascii) : ascii :=
  let n := nat_of_ascii c in
  if (Nat.leb 65 n && Nat.leb n 90)
     || (Nat.leb 192 n && Nat.leb n 222 && negb (Nat.eqb n 215))
  then ascii_of_nat (n + 32) else c.

Fixpoint toLowerCase (s : string) : string :=
  match s with
  | EmptyString => EmptyString
  | String c s' => String (lowerChar c) (toLowerCase s')
  end.

(** The ASCII characters of a name without a colon, as a path and a
    selector read one: a letter or the low line at its start, then letters,
    digits, the hyphen, the low line and the full stop. *)
Definition isCapital (c : ascii) : bool :=
  let n := nat_of_ascii c in Nat.leb 65 n && Nat.leb n 90.

Definition isSmallLetter (c : ascii) : bool :=
  let n := nat_of_ascii c in Nat.leb 97 n && Nat.leb n 122.

Definition isDigit (c : ascii) : bool :=
  let n := nat_of_ascii c in Nat.leb 48 n && Nat.leb n 57.

Definition isNameStartChar (c : ascii) : bool :=
  isCapital c || isSmallLetter c || Nat.eqb (nat_of_ascii c) 95.

Definition isNameChar (c : ascii) : bool :=
  isNameStartChar c || isDigit c
  || Nat.eqb (nat_of_ascii c) 45 || Nat.eqb (nat_of_ascii c) 46.

(** A character of a name as an HTML document reports it for its HTML
    elements (the document reports [DIV] for a [div]): a character of a
    name that is no small letter. *)
Definition isUpperNameChar (c : ascii) : bool :=
  isNameChar c && negb (isSmallLetter c).

Fixpoint forallChars (p : ascii -> bool) (s : string) : bool :=
  match s with
  | EmptyString => true
  | String c s' => p c && forallChars p s'
  end.

(** [parts.join(sep)] *)
Definition join (sep : string) (parts : list string) : string :=
  String.concat sep parts.

(** The decimal numeral of a number, as a template literal prints it. *)
Definition ofNat (n : nat) : string :=
  NilEmpty.string_of_uint (Nat.to_uint n).

End Str.

(** ** JavaScript values and exceptions

    [JHost] is an object of the host of the given interface (an
    [SVGAnimatedString], say): it is truthy, it is no string, and it has no
    property of its own for [JSON.stringify] to write. *)

#[warnings="-register-all"]
Inductive jsval : Type :=
| JUndefined
| JNull
| JBool (b : bool)
| JNum (n : Z)
| JStr (s : string)
| JArr (items : list jsval)
| JObj (props : list (string * jsval))
| JHost (interface : string).

(** Truthiness, as [||], [!], [? :] and [if] test it. *)
Definition truthy (v : jsval) : bool :=
  match v with
  | JUndefined | JNull => false
  | JBool b => b
  | JNum n => negb (Z.eqb n 0)
  | JStr s => negb (String.eqb s "")
  | JArr _ | JObj _ | JHost _ => true
  end.

Inductive exn : Type := TypeError | SyntaxError.

Inductive result (A : Type) : Type :=
| Ok (a : A)
| Throw (e : exn).
Arguments Ok {A} a.
Arguments Throw {A} e.

Definition bind {A B : Type} (m : result A) (k : A -> result B) : result B :=
  match m with
  | Ok a => k a
  | Throw e => Throw e
  end.

Notation "'let!' x ':=' m 'in' k" := (bind m (fun x => k))
  (at level 10, x name, m at level 100, k at level 200).

(** [v.trim()] on a value that need not be a string: anything else has no
    such method, and the call throws. *)
Definition callTrim (v : jsval) : result string :=
  match v with
  | JStr s => Ok (Str.trim s)
  | _ => Throw TypeError
  end.

(** [s || null] for a string [s]. *)
Definition orNull (s : string) : option string :=
  if String.eqb s "" then None else Some s.

(** [a || null] for the result [a] of [getAttribute] (a string or null). *)
Definition attrOrNull (a : option string) : option string :=
  match a with
  | Some s => orNull s
  | None => None
  end.

(** ** The document tree of the host *)

(** A node reference: the child indices from the node up to the document,
    nearest first; [[]] is the document itself. Two references are the same
    node exactly when they are equal. *)
Definition ref : Type := list nat.

Record DOMRect := { x : Z; y : Z; width : Z; height : Z }.

Record CSSStyleDeclaration := { visibility : string; display : string }.

(** A property that holds a node, [null], or does not exist. *)
Inductive nodeProperty : Type :=
| NoProperty
| NullNode
| TheNode (r : ref).

(** What the script, and the host on its behalf, read of an element. The
    properties [value], [type], [disabled], [readOnly], [checked] and
    [selected] exist on some element kinds only and have the type their kind
    gives them ([undefined] where the kind has none; the [value] of a list
    item is a number). [innerText] ([None] for [undefined]) and
    [offsetParent] are properties of HTML elements; an element of another
    namespace, such as SVG, has neither. The script never reads
    [namespaceURI] ([None] for [null]); selectors and paths do. *)
Record Element := {
  nodeName : string;
  namespaceURI : option string;
  attrs : list (string * string);
  value : jsval;
  type : jsval;
  disabled : jsval;
  readOnly : jsval;
  checked : jsval;
  selected : jsval;
  innerText : option string;
  offsetParent : nodeProperty;
  boundingClientRect : DOMRect;
  computedStyle : CSSStyleDeclaration
}.

Definition HTML_NAMESPACE : string := "http://www.w3.org/1999/xhtml".

Definition SVG_NAMESPACE : string := "http://www.w3.org/2000/svg".

Definition isHTMLElement (e : Element) : bool :=
  match namespaceURI e with
  | Some ns => String.eqb ns HTML_NAMESPACE
  | None => false
  end.

(** [element.localName]. An HTML document reports the name of an HTML
    element in upper case and the name of any other element as it is; the
    names have no prefix. *)
Definition localName (e : Element) : string :=
  if isHTMLElement e then Str.toLowerCase (nodeName e) else nodeName e.

#[warnings="-register-all"]
Inductive Node : Type :=
| ElementNode (e : Element) (childNodes : list Node)
| TextNode (data : string)
| ProcessingInstruction (target data : string)
| CommentNode (data : string)
| DocumentTypeNode (name : string).

(** The children of the document node. *)
Definition Document : Type := list Node.

Definition ELEMENT_NODE : Z := 1.

Definition nodeTypeOf (n : Node) : Z :=
  match n with
  | ElementNode _ _ => 1
  | TextNode _ => 3
  | ProcessingInstruction _ _ => 7
  | CommentNode _ => 8
  | DocumentTypeNode _ => 10
  end.

Definition nodeNameOf (n : Node) : string :=
  match n with
  | ElementNode e _ => nodeName e
  | TextNode _ => "#text"
  | ProcessingInstruction target _ => target
  | CommentNode _ => "#comment"
  | DocumentTypeNode name => name
  end.

Definition childNodesOf (n : Node) : list Node :=
  match n with
  | ElementNode _ cs => cs
  | _ => []
  end.

(** The child nodes of the node a reference denotes. *)
Fixpoint childNodes (doc : Document) (r : ref) : list Node :=
  match r with
  | [] => doc
  | i :: parent =>
      match childNodes doc parent !! i with
      | Some n => childNodesOf n
      | None => []
      end
  end.

(** The node a reference denotes, but for the document itself; [None] for a
    reference that denotes nothing. *)
Definition nodeAt (doc : Document) (r : ref) : option Node :=
  match r with
  | [] => None
  | i :: parent => childNodes doc parent !! i
  end.

Definition elementAt (doc : Document) (r : ref) : option Element :=
  match nodeAt doc r with
  | Some (ElementNode e _) => Some e
  | _ => None
  end.

(** [element.previousSibling], then its [previousSibling], and so on. *)
Definition previousSiblings (doc : Document) (r : ref) : list Node :=
  match r with
  | [] => []
  | i :: parent => rev (take i (childNodes doc parent))
  end.

(** [element.nextSibling], then its [nextSibling], and so on. *)
Definition nextSiblings (doc : Document) (r : ref) : list Node :=
  match r with
  | [] => []
  | i :: parent => drop (S i) (childNodes doc parent)
  end.

(** [element.getAttribute(name)] *)
Fixpoint getAttribute' (l : list (string * string)) (name : string) : option string :=
  match l with
  | [] => None
  | (k, v) :: l' => if String.eqb k name then Some v else getAttribute' l' name
  end.

Definition getAttribute (e : Element) (name : string) : option string :=
  getAttribute' (attrs e) name.

(** [element.id] reflects the attribute: the property the element has of its
    own. (On a form, a control named [id] stands in its place: the documents
    of [unshadowed], below, have none.) *)
Definition elementId (e : Element) : string :=
  default "" (getAttribute e "id").

(** [element.className] reflects the attribute, but on an SVG element, where
    it is an animated string: an object of the host. *)
Definition className (e : Element) : jsval :=
  match namespaceURI e with
  | Some ns =>
      if String.eqb ns SVG_NAMESPACE then JHost "SVGAnimatedString"
      else JStr (default "" (getAttribute e "class"))
  | None => JStr (default "" (getAttribute e "class"))
  end.

(** [element.tagName] is the [nodeName] of an element. *)
Definition tagName (e : Element) : string := nodeName e.

(** ** getXPathForElement *)

(** The first inner loop: [nb] is [nbOfPreviousSiblings]. *)
Fixpoint countPreviousSiblings (name : string) (siblings : list Node) (nb : nat) : nat :=
  match siblings with
  | [] => nb
  | sibling :: rest =>
      countPreviousSiblings name rest
        (if Z.eqb (nodeTypeOf sibling) ELEMENT_NODE && String.eqb (nodeNameOf sibling) name
         then S nb else nb)
  end.

(** The second inner loop; it does not look at the node type. *)
Fixpoint findNextSibling (name : string) (siblings : list Node) : bool :=
  match siblings with
  | [] => false
  | sibling :: rest =>
      if String.eqb (nodeNameOf sibling) name then true
      else findNextSibling name rest
  end.

Definition xpathPart (doc : Document) (element : ref) (e : Element) : string :=
  let nbOfPreviousSiblings :=
    countPreviousSiblings (nodeName e) (previousSiblings doc element) 0 in
  let hasNextSiblings := findNextSibling (nodeName e) (nextSiblings doc element) in
  let tagName := Str.toLowerCase (nodeName e) in
  if negb (Nat.eqb nbOfPreviousSiblings 0) || hasNextSiblings
  then tagName +:+ "[" +:+ Str.ofNat (nbOfPreviousSiblings + 1) +:+ "]"
  else tagName.

(** The outer loop: [element = element.parentNode] is the tail of the
    reference, and the loop ends at the document (node type 9) or at a
    reference that denotes no element. *)
Fixpoint xpathParts (doc : Document) (element : ref) (parts : list string) : list string :=
  match element with
  | [] => parts
  | _ :: parentNode =>
      match nodeAt doc element with
      | Some (ElementNode e _) =>
          xpathParts doc parentNode (xpathPart doc element e :: parts)
      | _ => parts
      end
  end.

(** The argument is [None] for [null]. The result is [None] for [null]. *)
Definition getXPathForElement (doc : Document) (element : option ref) : option string :=
  match element with
  | None => None
  | Some r =>
      let id := match elementAt doc r with Some e => elementId e | None => "" end in
      if negb (String.eqb id "") then Some ("//*[@id='" +:+ id +:+ "']")
      else
        match xpathParts doc r [] with
        | [] => None
        | parts => Some ("/" +:+ Str.join "/" parts)
        end
  end.

(** ** Location paths

    The paths the synthesizer writes are absolute location paths of child
    steps: a name test without a prefix, and possibly the position predicate
    [[k]]. This is how the host evaluates such a path on an HTML document:
    a step selects, among the child nodes of the context node, the elements
    that pass the name test, in document order; [[k]] keeps the k-th of
    them, counted from 1. An HTML element passes the test when its local
    name is the name of the test in lower case; an element of no namespace,
    when its local name is the name of the test; an element of another
    namespace (SVG, MathML) passes no test without a prefix. *)

Record Step := { stepName : string; stepPosition : option nat }.

Definition renderStep (s : Step) : string :=
  match stepPosition s with
  | Some k => stepName s +:+ "[" +:+ Str.ofNat k +:+ "]"
  | None => stepName s
  end.

Definition renderPath (steps : list Step) : string :=
  "/" +:+ Str.join "/" (map renderStep steps).

Definition nameTest (name : string) (n : Node) : bool :=
  match n with
  | ElementNode e _ =>
      if isHTMLElement e then String.eqb (localName e) (Str.toLowerCase name)
      else match namespaceURI e with
           | None => String.eqb (localName e) name
           | Some _ => false
           end
  | _ => false
  end.

(** The children [kids], the first of which has index [i], that pass the
    name test. *)
Fixpoint selectChildren (name : string) (ctx : ref) (i : nat) (kids : list Node) : list ref :=
  match kids with
  | [] => []
  | c :: rest =>
      (if nameTest name c then [i :: ctx] else []) ++ selectChildren name ctx (S i) rest
  end.

Definition evalStep (doc : Document) (s : Step) (ctx : ref) : list ref :=
  let selected := selectChildren (stepName s) ctx 0 (childNodes doc ctx) in
  match stepPosition s with
  | None => selected
  | Some 0 => []
  | Some (S j) => match selected !! j with Some r => [r] | None => [] end
  end.

(** The node set of an absolute path; the evaluation starts at the document. *)
Definition evalPath (doc : Document) (steps : list Step) : list ref :=
  fold_left (fun ctxs s => flat_map (evalStep doc s) ctxs) steps [[]].

(** The text of such a path, read back. [splitAt sep s] is [s.split(sep)]. *)
Fixpoint splitAt (sep : ascii) (s : string) : list string :=
  match s with
  | EmptyString => [EmptyString]
  | String c s' =>
      if Ascii.eqb c sep then EmptyString :: splitAt sep s'
      else match splitAt sep s' with
           | h :: t => String c h :: t
           | [] => [String c EmptyString]
           end
  end.

(** A name test without a prefix, in ASCII: a name without a colon. Any
    other text in the place of a name (a prefix, a star, a quote, a letter
    beyond ASCII) is no step of this kind. *)
Definition isNameTest (name : string) : bool :=
  match name with
  | EmptyString => false
  | String c _ => Str.isNameStartChar c && Str.forallChars Str.isNameChar name
  end.

(** [name] or [name[digits]]. *)
Definition parseStep (segment : string) : option Step :=
  match splitAt "[" segment with
  | [name] =>
      if negb (isNameTest name) then None
      else Some {| stepName := name; stepPosition := None |}
  | [name; predicate] =>
      match splitAt "]" predicate with
      | [digits; EmptyString] =>
          if negb (isNameTest name) || String.eqb digits "" then None
          else match NilEmpty.uint_of_string digits with
               | Some d => Some {| stepName := name; stepPosition := Some (Nat.of_uint d) |}
               | None => None
               end
      | _ => None
      end
  | _ => None
  end.

Fixpoint parseSteps (segments : list string) : option (list Step) :=
  match segments with
  | [] => Some []
  | segment :: rest =>
      match parseStep segment, parseSteps rest with
      | Some s, Some steps => Some (s :: steps)
      | _, _ => None
      end
  end.

(** [/step/step/...]; any other text is no path of this kind, and the
    model says nothing of it. *)
Definition parsePath (text : string) : option (list Step) :=
  match text with
  | String "/" rest => parseSteps (splitAt "/" rest)
  | _ => None
  end.

(** The node set the host finds for the text of a path. *)
Definition evaluate (doc : Document) (text : string) : option (list ref) :=
  match parsePath text with
  | Some steps => Some (evalPath doc steps)
  | None => None
  end.

(** A character that leaves a segment and its name in one piece. *)
Definition isNot (sep : ascii) (c : ascii) : bool := negb (Ascii.eqb c sep).

(** A step whose text reads back as the step. *)
Definition readable (s : Step) : Prop :=
  stepName s <> ""
  /\ Str.forallChars (isNot "/") (stepName s) = true
  /\ Str.forallChars (isNot "[") (stepName s) = true
  /\ isNameTest (stepName s) = true.

(** ** The path of an element, as the specification words it

    At each level: the position is 1 plus the number of preceding element
    siblings that share the name of the element; the segment is indexed when
    a preceding or a following sibling shares the name. A preceding sibling
    counts when it is an element of that name, a following sibling when it
    is a node of that name: the source asks the node type of the preceding
    siblings only. *)

Definition sameNameElement (name : string) (n : Node) : bool :=
  Z.eqb (nodeTypeOf n) ELEMENT_NODE && String.eqb (nodeNameOf n) name.

Definition sameName (name : string) (n : Node) : bool :=
  String.eqb (nodeNameOf n) name.

Definition positionAmongSiblings (doc : Document) (r : ref) (e : Element) : nat :=
  match r with
  | [] => 1
  | i :: parent =>
      1 + length (List.filter (sameNameElement (nodeName e)) (take i (childNodes doc parent)))
  end.

Definition precededBySameName (doc : Document) (r : ref) (e : Element) : bool :=
  match r with
  | [] => false
  | i :: parent => existsb (sameNameElement (nodeName e)) (take i (childNodes doc parent))
  end.

Definition followedBySameName (doc : Document) (r : ref) (e : Element) : bool :=
  match r with
  | [] => false
  | i :: parent => existsb (sameName (nodeName e)) (drop (S i) (childNodes doc parent))
  end.

Definition stepOf (doc : Document) (r : ref) (e : Element) : Step :=
  {| stepName := Str.toLowerCase (nodeName e);
     stepPosition :=
       if precededBySameName doc r e || followedBySameName doc r e
       then Some (positionAmongSiblings doc r e)
       else None |}.

(** Root first, the element last. *)
Fixpoint stepsOf (doc : Document) (r : ref) : list Step :=
  match r with
  | [] => []
  | _ :: parent =>
      match elementAt doc r with
      | Some e => stepsOf doc parent ++ [stepOf doc r e]
      | None => []
      end
  end.

(** The element and its ancestors, the root first. *)
Fixpoint levelsOf (r : ref) : list ref :=
  match r with
  | [] => []
  | _ :: parent => levelsOf parent ++ [r]
  end.

(** The name an HTML document reports for an HTML element whose tag is
    written with ASCII letters, digits, hyphens, low lines and full stops
    after its first letter: the same in upper case. *)
Definition startsWithCapital (name : string) : bool :=
  match name with
  | EmptyString => false
  | String c _ => Str.isCapital c
  end.

Definition isUpperName (name : string) : bool :=
  startsWithCapital name && Str.forallChars Str.isUpperNameChar name.

(** An element of another namespace (SVG, MathML) is reported under the
    name it is written with; here, one that is no name in upper case. *)
Definition isForeignName (e : Element) : bool :=
  match namespaceURI e with
  | Some _ => negb (isUpperName (nodeName e))
  | None => false
  end.

(** A document of such names: every HTML element has a name of that kind,
    and every other element a namespace and a name that is none. What is
    below an element of another namespace is not looked at. *)
Fixpoint parsedNode (n : Node) : bool :=
  match n with
  | ElementNode e cs =>
      if isHTMLElement e then isUpperName (nodeName e) && forallb parsedNode cs
      else isForeignName e
  | _ => true
  end.

Definition parsedNames (doc : Document) : bool := forallb parsedNode doc.

(** The element and its ancestors are HTML elements. *)
Definition htmlChain (doc : Document) (r : ref) : bool :=
  forallb (fun level =>
             match elementAt doc level with
             | Some el => isHTMLElement el
             | None => false
             end)
    (levelsOf r).

(** ** Queries of the host *)

(** A type selector compares its name with the local name, in any
    namespace. *)
Definition inList (s : string) (l : list string) : bool := existsb (String.eqb s) l.

Definition interactiveTags : list string :=
  ["a"; "button"; "input"; "select"; "textarea"; "label"; "h1"; "h2"; "h3"; "h4"].

Definition interactiveRoles : list string := ["button"; "link"; "tab"].

(** [element.matches(interactiveSelector)] *)
Definition interactiveSelector (e : Element) : bool :=
  inList (localName e) interactiveTags
  || match getAttribute e "role" with Some r => inList r interactiveRoles | None => false end
  || match getAttribute e "onclick" with Some _ => true | None => false end.

Definition isLabel (e : Element) : bool := String.eqb (localName e) "label".

Definition isForm (e : Element) : bool := String.eqb (localName e) "form".

(** The test of [label[for="ID"]]. *)
Definition isLabelFor (forId : string) (e : Element) : bool :=
  isLabel e
  && match getAttribute e "for" with Some v => String.eqb v forId | None => false end.

(** The elements below a node, the node first: document order. *)
Fixpoint elementsUnder (n : Node) (r : ref) : list ref :=
  match n with
  | ElementNode _ cs =>
      r :: (fix each (cs : list Node) (i : nat) : list ref :=
              match cs with
              | [] => []
              | c :: rest => elementsUnder c (i :: r) ++ each rest (S i)
              end) cs 0
  | _ => []
  end.

Fixpoint elementsAmong (cs : list Node) (parent : ref) (i : nat) : list ref :=
  match cs with
  | [] => []
  | c :: rest => elementsUnder c (i :: parent) ++ elementsAmong rest parent (S i)
  end.

Definition allElements (doc : Document) : list ref := elementsAmong doc [] 0.

Definition matchesAt (doc : Document) (selector : Element -> bool) (r : ref) : bool :=
  match elementAt doc r with
  | Some e => selector e
  | None => false
  end.

(** [document.querySelectorAll(selector)]: every matching element once, in
    document order. *)
Definition querySelectorAll (doc : Document) (selector : Element -> bool) : list ref :=
  List.filter (matchesAt doc selector) (allElements doc).

(** [document.querySelector(selector)] *)
Definition querySelector (doc : Document) (selector : Element -> bool) : option ref :=
  head (querySelectorAll doc selector).

(** A character that ends or escapes a quoted string of a selector, or that
    a quoted string may not hold: the quote, the backslash, LF, FF and CR. *)
Definition breaksQuotedString (c : ascii) : bool :=
  let n := nat_of_ascii c in
  Nat.eqb n 34 || Nat.eqb n 92 || Nat.eqb n 10 || Nat.eqb n 12 || Nat.eqb n 13.

(** [document.querySelector(`label[for="${id}"]`)]: the id is pasted into the
    text of the selector. With an id free of the characters above, the text
    is the test [isLabelFor id]. With another id the host refuses the text
    or reads another selector from it (a backslash starts an escape, a quote
    ends the string): the model stops there with an exception, and follows
    the host on the documents of [plainIds] only. *)
Definition querySelectorLabelFor (doc : Document) (id : string) : result (option ref) :=
  if Str.forallChars (fun c => negb (breaksQuotedString c)) id
  then Ok (querySelector doc (isLabelFor id))
  else Throw SyntaxError.

(** [element.closest(selector)]: the element itself, then its parent
    elements. *)
Fixpoint closest (doc : Document) (selector : Element -> bool) (element : ref) : option ref :=
  match element with
  | [] => None
  | _ :: parentNode =>
      match elementAt doc element with
      | Some e => if selector e then Some element else closest doc selector parentNode
      | None => None
      end
  end.

(** The data of the text nodes below a node, in document order. *)
Fixpoint textOf (n : Node) : string :=
  match n with
  | ElementNode _ cs => String.concat "" (map textOf cs)
  | TextNode data => data
  | _ => ""
  end.

(** [element.textContent] *)
Definition textContent (doc : Document) (r : ref) : string :=
  match nodeAt doc r with
  | Some n => textOf n
  | None => ""
  end.

(** ** Named elements in the place of properties

    A form exposes its controls, and the document its forms, images and
    embedded objects, under the value of their [name] or [id] attribute, and
    such a name takes the place of the property of that name: [form.id] of a
    form with a control named [id] is that control, and
    [document.querySelectorAll] of a document with a form named
    [querySelectorAll] is that form. The definitions of this development
    read every property as the node has it of its own: they follow the host
    on a document in which no element carries, as its [name] or as its [id],
    the name of a property or of a method that the script reads on an
    element or on the document. The form is asked for its [name] for the
    context of a record only. *)

Definition propertiesRead : list string :=
  ["id"; "nodeType"; "nodeName"; "previousSibling"; "nextSibling"; "parentNode";
   "parentElement"; "tagName"; "getAttribute"; "closest"; "getBoundingClientRect";
   "offsetParent"; "textContent"; "innerText"; "value"; "className"; "type";
   "disabled"; "readOnly"; "checked"; "selected"; "querySelectorAll"; "querySelector"].

Definition isNamedLike (names : list string) (e : Element) : bool :=
  match getAttribute e "name" with Some v => inList v names | None => false end
  || match getAttribute e "id" with Some v => inList v names | None => false end.

Definition noElementNamed (names : list string) (doc : Document) : bool :=
  forallb (fun r => match elementAt doc r with
                    | Some e => negb (isNamedLike names e)
                    | None => true
                    end)
    (allElements doc).

Definition unshadowed (doc : Document) : bool := noElementNamed propertiesRead doc.

Definition formNameUnshadowed (doc : Document) : bool := noElementNamed ["name"] doc.

(** An id that the selector of the label lookup holds as it is, between its
    quotes: without a quote, a backslash, a line break or a NUL. With any
    other id the host reads another selector from the text, or none, and
    the model does not follow it. *)
Definition isPlainId (id : string) : bool :=
  Str.forallChars (fun c => negb (breaksQuotedString c)) id
  && Str.forallChars (fun c => negb (Nat.eqb (nat_of_ascii c) 0)) id.

Definition plainIds (doc : Document) : bool :=
  forallb (fun r => match elementAt doc r with
                    | Some e => isPlainId (elementId e)
                    | None => true
                    end)
    (allElements doc).

(** A document on which the pass of the model is the pass of the host. *)
Definition ordinaryDocument (doc : Document) : bool := unshadowed doc && plainIds doc.

(** ** The records *)

Module Attributes.
Record t := {
  id : option string;
  class : jsval;
  name : option string;
  type : jsval;
  role : option string;
  ariaLabel : option string;
  placeholder : option string;
  href : option string
}.
End Attributes.

Module State.
Record t := {
  isDisabled : jsval;
  isReadOnly : jsval;
  isChecked : jsval;
  isSelected : jsval;
  isHiddenByAria : bool
}.
End State.

Module Text.
Record t := {
  visibleText : option string;
  labelText : option string;
  computedText : string
}.
End Text.

Module Form.
Record t := { id : option string; name : option string }.
End Form.

Module Context.
Record t := {
  tagName : string;
  id : option string;
  role : option string;
  ariaLabel : option string;
  form : option Form.t  (* [None]: the property is absent *)
}.
End Context.

Module ElementRecord.
Record t := {
  tagName : string;
  attributes : Attributes.t;
  state : State.t;
  text : Text.t;
  context : option Context.t;
  xpath : option string;
  location : DOMRect
}.
End ElementRecord.

(** ** getAncestorContext

    The tag, the id and the attributes of the parent, and the id and the
    name of the form, are read as the properties these elements have of
    their own (see [unshadowed] and [formNameUnshadowed]). *)

(** [element.parentElement]: the parent node when it is an element. *)
Definition parentElement (doc : Document) (element : ref) : option ref :=
  match element with
  | [] => None
  | _ :: parentNode =>
      match elementAt doc parentNode with
      | Some _ => Some parentNode
      | None => None
      end
  end.

(** [form.name] reflects the attribute of an HTML form; another element has
    no such property, and [undefined || null] is [null]. (A control named
    [name] stands in its place: the documents of [formNameUnshadowed] have
    none.) *)
Definition formName (f : Element) : string :=
  if isHTMLElement f then default "" (getAttribute f "name") else "".

Definition formContext (doc : Document) (element : ref) : option Form.t :=
  match closest doc isForm element with
  | Some formAncestor =>
      match elementAt doc formAncestor with
      | Some f =>
          Some {| Form.id := orNull (elementId f);
                  Form.name := orNull (formName f) |}
      | None => None
      end
  | None => None
  end.

Definition getAncestorContext (doc : Document) (element : ref) : option Context.t :=
  match parentElement doc element with
  | Some parentRef =>
      match elementAt doc parentRef with
      | Some parent =>
          Some {| Context.tagName := Str.toLowerCase (tagName parent);
                  Context.id := orNull (elementId parent);
                  Context.role := attrOrNull (getAttribute parent "role");
                  Context.ariaLabel := attrOrNull (getAttribute parent "aria-label");
                  Context.form := formContext doc element |}
      | None => None
      end
  | None => None
  end.

(** ** The pass over the candidates *)

(** [a || b] on strings and [null] ([None]). *)
Definition orElse (a b : option string) : option string :=
  match a with
  | Some s => if String.eqb s "" then b else a
  | None => b
  end.

Definition orString (a b : string) : string := if String.eqb a "" then b else a.

(** Rule 1 of the filter. *)
Definition isInvisible (e : Element) : bool :=
  let style := computedStyle e in
  let rect := boundingClientRect e in
  Z.eqb (width rect) 0 || Z.eqb (height rect) 0
  || match offsetParent e with NullNode => true | _ => false end
  || String.eqb (visibility style) "hidden"
  || String.eqb (display style) "none".

Definition mainTextOf (doc : Document) (element : ref) (e : Element) : string :=
  Str.trim
    (default "" (orElse (orElse (Some (textContent doc element)) (innerText e)) (Some ""))).

(** [element.value ? element.value.trim() : ""] *)
Definition valueTextOf (e : Element) : result string :=
  if truthy (value e) then callTrim (value e) else Ok "".

(** [(label.textContent || label.innerText).trim()]: with an empty text
    content and no [innerText] there is nothing to call [trim] on. *)
Definition textOfLabel (doc : Document) (label : ref) : result string :=
  match elementAt doc label with
  | Some l =>
      match orElse (Some (textContent doc label)) (innerText l) with
      | Some s => Ok (Str.trim s)
      | None => Throw TypeError
      end
  | None => Throw TypeError
  end.

Definition labelTextOf (doc : Document) (element : ref) (e : Element) : result string :=
  let! labelText :=
    (if negb (String.eqb (elementId e) "")
     then let! label := querySelectorLabelFor doc (elementId e) in
          match label with
          | Some l => textOfLabel doc l
          | None => Ok ""
          end
     else Ok "") in
  if String.eqb labelText ""
  then match closest doc isLabel element with
       | Some parentLabel => textOfLabel doc parentLabel
       | None => Ok labelText
       end
  else Ok labelText.

Definition computedTextOf (e : Element) (labelText visibleText : string) : string :=
  let ariaLabel := getAttribute e "aria-label" in
  let placeholder := getAttribute e "placeholder" in
  let name := getAttribute e "name" in
  Str.normalize
    (default ""
       (orElse (orElse (orElse (orElse (orElse ariaLabel (Some labelText)) (Some visibleText))
                         placeholder) name)
           (Some ""))).

(** The object literal of [elementDetails.push]. *)
Definition assemble (doc : Document) (element : ref) (e : Element)
    (visibleText labelText computedText : string) : ElementRecord.t :=
  let rect := boundingClientRect e in
  {| ElementRecord.tagName := Str.toLowerCase (tagName e);
     ElementRecord.attributes :=
       {| Attributes.id := orNull (elementId e);
          Attributes.class := if truthy (className e) then className e else JNull;
          Attributes.name := attrOrNull (getAttribute e "name");
          Attributes.type :=
            if String.eqb (Str.toLowerCase (tagName e)) "input" then type e else JNull;
          Attributes.role := attrOrNull (getAttribute e "role");
          Attributes.ariaLabel := attrOrNull (getAttribute e "aria-label");
          Attributes.placeholder := attrOrNull (getAttribute e "placeholder");
          Attributes.href := attrOrNull (getAttribute e "href") |};
     ElementRecord.state :=
       {| State.isDisabled := disabled e;
          State.isReadOnly := readOnly e;
          State.isChecked := checked e;
          State.isSelected := selected e;
          State.isHiddenByAria :=
            match getAttribute e "aria-hidden" with
            | Some v => String.eqb v "true"
            | None => false
            end |};
     ElementRecord.text :=
       {| Text.visibleText := orNull visibleText;
          Text.labelText := orNull labelText;
          Text.computedText := computedText |};
     ElementRecord.context := getAncestorContext doc element;
     ElementRecord.xpath := getXPathForElement doc (Some element);
     ElementRecord.location :=
       {| x := x rect; y := y rect; width := width rect; height := height rect |} |}.

(** [elementDetails] and [processedElements]. A record is kept with the
    reference of the node it describes; the reference is no part of the
    record and is not serialized. *)
Record ScanState := {
  elementDetails : list (ref * ElementRecord.t);
  processedElements : gset ref
}.

Definition initialState : ScanState :=
  {| elementDetails := []; processedElements := ∅ |}.

(** The callback of [allPotentialElements.forEach]. The host refuses
    [getComputedStyle] on what is no element. *)
Definition visit (doc : Document) (st : ScanState) (element : ref) : result ScanState :=
  if decide (element ∈ processedElements st) then Ok st
  else
    match elementAt doc element with
    | None => Throw TypeError
    | Some e =>
        if isInvisible e then Ok st
        else
          let mainText := mainTextOf doc element e in
          let! valueText := valueTextOf e in
          let visibleText := orString mainText valueText in
          let! labelText := labelTextOf doc element e in
          let computedText := computedTextOf e labelText visibleText in
          if String.eqb (elementId e) "" && String.eqb computedText "" then Ok st
          else
            Ok {| processedElements := {[ element ]} ∪ processedElements st;
                  elementDetails :=
                    elementDetails st
                    ++ [(element, assemble doc element e visibleText labelText computedText)] |}
    end.

Fixpoint forEach {S : Type} (callback : S -> ref -> result S) (l : list ref) (st : S)
    : result S :=
  match l with
  | [] => Ok st
  | element :: rest => let! st' := callback st element in forEach callback rest st'
  end.

(** The pass over an arbitrary stream of candidates. *)
Definition scanCandidates (doc : Document) (candidates : list ref)
    : result (list (ref * ElementRecord.t)) :=
  let! st := forEach (visit doc) candidates initialState in
  Ok (elementDetails st).

(** The script: the candidates are those of [interactiveSelector], asked of
    the document by its own method [querySelectorAll] (see [unshadowed]). *)
Definition scan (doc : Document) : result (list (ref * ElementRecord.t)) :=
  scanCandidates doc (querySelectorAll doc interactiveSelector).

(** The callback without the set: what it decides for an element not yet
    processed. [Ok None] is a [return] before the push. *)
Definition describe (doc : Document) (element : ref) : result (option ElementRecord.t) :=
  match elementAt doc element with
  | None => Throw TypeError
  | Some e =>
      if isInvisible e then Ok None
      else
        let mainText := mainTextOf doc element e in
        let! valueText := valueTextOf e in
        let visibleText := orString mainText valueText in
        let! labelText := labelTextOf doc element e in
        let computedText := computedTextOf e labelText visibleText in
        if String.eqb (elementId e) "" && String.eqb computedText "" then Ok None
        else Ok (Some (assemble doc element e visibleText labelText computedText))
  end.

(** ** The serialized output

    [JSON.stringify] writes a text; the model keeps the syntax tree of that
    text. A property whose value is [undefined] is left out of an object,
    an [undefined] item of an array is written [null], and an object of the
    host is written as the empty object. Numbers are integers here. *)

#[warnings="-register-all"]
Inductive json : Type :=
| JsonNull
| JsonBool (b : bool)
| JsonNumber (n : Z)
| JsonString (s : string)
| JsonArray (items : list json)
| JsonObject (members : list (string * json)).

Module JSON.

(** [None]: the result is [undefined], no text. *)
Fixpoint stringify (v : jsval) : option json :=
  match v with
  | JUndefined => None
  | JNull => Some JsonNull
  | JBool b => Some (JsonBool b)
  | JNum n => Some (JsonNumber n)
  | JStr s => Some (JsonString s)
  | JHost _ => Some (JsonObject [])
  | JArr items =>
      Some (JsonArray (map (fun item => default JsonNull (stringify item)) items))
  | JObj props =>
      Some (JsonObject
              ((fix members (ps : list (string * jsval)) : list (string * json) :=
                  match ps with
                  | [] => []
                  | (k, v') :: rest =>
                      match stringify v' with
                      | Some j => (k, j) :: members rest
                      | None => members rest
                      end
                  end) props))
  end.

Fixpoint parse (j : json) : jsval :=
  match j with
  | JsonNull => JNull
  | JsonBool b => JBool b
  | JsonNumber n => JNum n
  | JsonString s => JStr s
  | JsonArray items => JArr (map parse items)
  | JsonObject members => JObj (map (fun m => (fst m, parse (snd m))) members)
  end.

(** [JSON.parse(JSON.stringify(v))] *)
Definition reparse (v : jsval) : option jsval :=
  match stringify v with
  | Some j => Some (parse j)
  | None => None
  end.

End JSON.

Definition ofString (o : option string) : jsval :=
  match o with
  | Some s => JStr s
  | None => JNull
  end.

Definition valueOfForm (f : Form.t) : jsval :=
  JObj [("id", ofString (Form.id f)); ("name", ofString (Form.name f))].

Definition valueOfContext (c : option Context.t) : jsval :=
  match c with
  | None => JNull
  | Some c =>
      JObj ([("tagName", JStr (Context.tagName c));
             ("id", ofString (Context.id c));
             ("role", ofString (Context.role c));
             ("ariaLabel", ofString (Context.ariaLabel c))]
            ++ match Context.form c with
               | Some f => [("form", valueOfForm f)]
               | None => []
               end)
  end.

(** The object a record is in memory, its properties in the order of the
    object literal. *)
Definition valueOfRecord (r : ElementRecord.t) : jsval :=
  let a := ElementRecord.attributes r in
  let s := ElementRecord.state r in
  let t := ElementRecord.text r in
  let l := ElementRecord.location r in
  JObj [("tagName", JStr (ElementRecord.tagName r));
        ("attributes",
          JObj [("id", ofString (Attributes.id a));
                ("class", Attributes.class a);
                ("name", ofString (Attributes.name a));
                ("type", Attributes.type a);
                ("role", ofString (Attributes.role a));
                ("ariaLabel", ofString (Attributes.ariaLabel a));
                ("placeholder", ofString (Attributes.placeholder a));
                ("href", ofString (Attributes.href a))]);
        ("state",
          JObj [("isDisabled", State.isDisabled s);
                ("isReadOnly", State.isReadOnly s);
                ("isChecked", State.isChecked s);
                ("isSelected", State.isSelected s);
                ("isHiddenByAria", JBool (State.isHiddenByAria s))]);
        ("text",
          JObj [("visibleText", ofString (Text.visibleText t));
                ("labelText", ofString (Text.labelText t));
                ("computedText", JStr (Text.computedText t))]);
        ("context", valueOfContext (ElementRecord.context r));
        ("xpath", ofString (ElementRecord.xpath r));
        ("location",
          JObj [("x", JNum (x l)); ("y", JNum (y l));
                ("width", JNum (width l)); ("height", JNum (height l))])].

(** The array [elementDetails] in memory. *)
Definition valueOfOutput (out : list (ref * ElementRecord.t)) : jsval :=
  JArr (map (fun p => valueOfRecord (snd p)) out).

(** [obj[key]] of an object; [None]: the object has no such property. *)
Definition getProperty (v : jsval) (key : string) : option jsval :=
  match v with
  | JObj props =>
      (fix get (ps : list (string * jsval)) : option jsval :=
         match ps with
         | [] => None
         | (k, v') :: rest => if String.eqb k key then Some v' else get rest
         end) props
  | _ => None
  end.

(** A value none of whose parts is [undefined] or an object of the host. *)
Fixpoint defined (v : jsval) : bool :=
  match v with
  | JUndefined => false
  | JHost _ => false
  | JArr items => forallb defined items
  | JObj props => forallb (fun p => defined (snd p)) props
  | _ => true
  end.

(** A value as the text gives it back: the properties that hold
    [undefined] removed, the items that are [undefined] made [null], and an
    object of the host made the empty object. *)
Fixpoint withoutUndefined (v : jsval) : jsval :=
  match v with
  | JHost _ => JObj []
  | JArr items =>
      JArr (map (fun item =>
                   match item with
                   | JUndefined => JNull
                   | _ => withoutUndefined item
                   end) items)
  | JObj props =>
      JObj ((fix keep (ps : list (string * jsval)) : list (string * jsval) :=
               match ps with
               | [] => []
               | (k, JUndefined) :: rest => keep rest
               | (k, v') :: rest => (k, withoutUndefined v') :: keep rest
               end) props)
  | _ => v
  end.

(** [v[k1][k2]...] through objects. *)
Fixpoint getPath (v : jsval) (keys : list string) : option jsval :=
  match keys with
  | [] => Some v
  | key :: rest =>
      match getProperty v key with
      | Some v' => getPath v' rest
      | None => None
      end
  end.

(** What re-parsing leaves of a property that holds [v]: nothing when [v]
    is [undefined]. *)
Definition present (v : jsval) : option jsval :=
  match v with
  | JUndefined => None
  | _ => Some (withoutUndefined v)
  end.

(** The fields of a record that hold what the host gave, whatever it is,
    have no part that is [undefined] or an object of the host. *)
Definition definedRecord (r : ElementRecord.t) : bool :=
  defined (Attributes.class (ElementRecord.attributes r))
  && defined (Attributes.type (ElementRecord.attributes r))
  && defined (State.isDisabled (ElementRecord.state r))
  && defined (State.isReadOnly (ElementRecord.state r))
  && defined (State.isChecked (ElementRecord.state r))
  && defined (State.isSelected (ElementRecord.state r)).

(** ** The claims in the words of the specification *)

(** The visibility filter lets an element pass. *)
Definition passesVisibilityFilter (e : Element) : Prop :=
  width (boundingClientRect e) <> 0%Z
  /\ height (boundingClientRect e) <> 0%Z
  /\ offsetParent e <> NullNode
  /\ visibility (computedStyle e) <> "hidden"
  /\ display (computedStyle e) <> "none".

(** The first source that is not empty; the empty string when all are. *)
Fixpoint firstNonEmpty (sources : list string) : string :=
  match sources with
  | [] => ""
  | s :: rest => if String.eqb s "" then firstNonEmpty rest else s
  end.

(** The text of a label, trimmed: its text content, or else its rendered
    text. *)
Definition trimmedLabelText (doc : Document) (label : ref) : string :=
  match elementAt doc label with
  | Some l => Str.trim (orString (textContent doc label) (default "" (innerText l)))
  | None => ""
  end.

(** The text of the label that names the element in its [for]. *)
Definition associatedLabelText (doc : Document) (e : Element) : string :=
  if String.eqb (elementId e) "" then ""
  else match querySelector doc (isLabelFor (elementId e)) with
       | Some l => trimmedLabelText doc l
       | None => ""
       end.

(** The text of the nearest label around the element (the element itself
    when it is a label). *)
Definition enclosingLabelText (doc : Document) (element : ref) : string :=
  match closest doc isLabel element with
  | Some l => trimmedLabelText doc l
  | None => ""
  end.

(** The text content of the element itself, or else its rendered text,
    trimmed. *)
Definition ownText (doc : Document) (element : ref) (e : Element) : string :=
  Str.trim (orString (textContent doc element) (default "" (innerText e))).

(** The value of the element itself, trimmed. *)
Definition ownValue (e : Element) : string :=
  match value e with
  | JStr s => Str.trim s
  | _ => ""
  end.

(** The sources as they are, before any trimming: the reading of the
    priority list that tests every source for emptiness as it stands. *)
Definition untrimmedLabelText (doc : Document) (label : ref) : string :=
  match elementAt doc label with
  | Some l => orString (textContent doc label) (default "" (innerText l))
  | None => ""
  end.

Definition untrimmedSources (doc : Document) (element : ref) (e : Element) : list string :=
  [ default "" (getAttribute e "aria-label");
    (if String.eqb (elementId e) "" then ""
     else match querySelector doc (isLabelFor (elementId e)) with
          | Some l => untrimmedLabelText doc l
          | None => ""
          end);
    match closest doc isLabel element with
    | Some l => untrimmedLabelText doc l
    | None => ""
    end;
    orString (textContent doc element) (default "" (innerText e));
    match value e with JStr v => v | _ => "" end;
    default "" (getAttribute e "placeholder");
    default "" (getAttribute e "name") ].

(** The sources of the computed text, in their order of priority. *)
Definition textSources (doc : Document) (element : ref) (e : Element) : list string :=
  [ default "" (getAttribute e "aria-label");
    associatedLabelText doc e;
    enclosingLabelText doc element;
    ownText doc element e;
    ownValue e;
    default "" (getAttribute e "placeholder");
    default "" (getAttribute e "name") ].

(** ** Notions of the further properties *)

(** [a] comes before [b] in tree order, the two paths read from the document
    down: [a] is an ancestor of [b], or the paths part at a child index that
    is the lower one in [a]. *)
Fixpoint pathBefore (a b : list nat) : bool :=
  match a, b with
  | [], [] => false
  | [], _ :: _ => true
  | _ :: _, [] => false
  | i :: a', j :: b' => Nat.ltb i j || (Nat.eqb i j && pathBefore a' b')
  end.

(** Document order of two nodes. *)
Definition precedes (a b : ref) : bool := pathBefore (rev a) (rev b).

(** The node and its ancestors, the node first, up to the document. *)
Fixpoint inclusiveAncestors (r : ref) : list ref :=
  match r with
  | [] => []
  | _ :: parentNode => r :: inclusiveAncestors parentNode
  end.

(** The pass without the set of processed elements: the callback on each
    candidate in turn, and a record for each one it accepts. *)
Fixpoint collect (doc : Document) (candidates : list ref)
    : result (list (ref * ElementRecord.t)) :=
  match candidates with
  | [] => Ok []
  | element :: rest =>
      let! o := describe doc element in
      let! out := collect doc rest in
      Ok (match o with
          | Some rec => (element, rec) :: out
          | None => out
          end)
  end.

(** ['/' + parts.join('/')] for the segments of an element and its
    ancestors, whatever their ids. *)
Definition positionalPath (doc : Document) (r : ref) : string :=
  "/" +:+ Str.join "/" (xpathParts doc r []).

(** The path of the id shortcut, read back: [//*[@id='ID']], for an [ID]
    without an apostrophe (a literal between apostrophes holds none). *)
Fixpoint stripPrefix (prefix s : string) : option string :=
  match prefix, s with
  | EmptyString, _ => Some s
  | String a prefix', String b s' =>
      if Ascii.eqb a b then stripPrefix prefix' s' else None
  | String _ _, EmptyString => None
  end.

Definition parseIdShortcut (text : string) : option string :=
  match stripPrefix "//*[@id='" text with
  | Some rest =>
      match splitAt "'" rest with
      | [id; closing] => if String.eqb closing "]" then Some id else None
      | _ => None
      end
  | None => None
  end.

(** The test [@id='ID'] on an element. *)
Definition hasId (id : string) (e : Element) : bool :=
  match getAttribute e "id" with
  | Some v => String.eqb v id
  | None => false
  end.

(** What the host finds for the shortcut: every element of the document
    whose id attribute is the literal, in document order. *)
Definition evaluateIdShortcut (doc : Document) (text : string) : option (list ref) :=
  match parseIdShortcut text with
  | Some id => Some (List.filter (matchesAt doc (hasId id)) (allElements doc))
  | None => None
  end.

(** A word: a text that is not empty and has no white space. *)
Definition isWord (w : string) : bool :=
  negb (String.eqb w "") && Str.forallChars (fun c => negb (Str.isWhiteSpace c)) w.

(** The fields of a record, and of its context, that hold a string or
    [null]. *)
Definition stringFields (rec : ElementRecord.t) : list (option string) :=
  let a := ElementRecord.attributes rec in
  let t := ElementRecord.text rec in
  [ Attributes.id a; Attributes.name a; Attributes.role a; Attributes.ariaLabel a;
    Attributes.placeholder a; Attributes.href a;
    Text.visibleText t; Text.labelText t; ElementRecord.xpath rec ]
  ++ match ElementRecord.context rec with
     | Some c =>
         [ Context.id c; Context.role c; Context.ariaLabel c ]
         ++ match Context.form c with
            | Some f => [ Form.id f; Form.name f ]
            | None => []
            end
     | None => []
     end.

(** ** Sample documents *)

Definition shown : DOMRect := {| x := 8; y := 8; width := 120; height := 24 |}.

(** A rendered HTML element with the given name, attributes, [value] and
    rendered text; the other properties are those of a kind that has none. *)
Definition rendered (name : string) (attributes : list (string * string))
    (v : jsval) (rendering : string) : Element :=
  {| nodeName := name; namespaceURI := Some HTML_NAMESPACE; attrs := attributes;
     value := v; type := JUndefined; disabled := JUndefined; readOnly := JUndefined;
     checked := JUndefined; selected := JUndefined;
     innerText := Some rendering;
     offsetParent := TheNode [1; 1];
     boundingClientRect := shown;
     computedStyle := {| visibility := "visible"; display := "block" |} |}.

(** A rendered element of the given namespace. *)
Definition foreign (ns : option string) (name : string) (attributes : list (string * string))
    : Element :=
  {| nodeName := name; namespaceURI := ns; attrs := attributes;
     value := JUndefined; type := JUndefined; disabled := JUndefined;
     readOnly := JUndefined; checked := JUndefined; selected := JUndefined;
     innerText := None;
     offsetParent := NoProperty;
     boundingClientRect := shown;
     computedStyle := {| visibility := "visible"; display := "inline" |} |}.

(** The same element as a form control of the given type. *)
Definition control (e : Element) (ty : string) (isChecked : jsval) : Element :=
  {| nodeName := nodeName e; namespaceURI := namespaceURI e; attrs := attrs e;
     value := value e; type := JStr ty; disabled := JBool false; readOnly := JBool false;
     checked := isChecked; selected := JUndefined;
     innerText := innerText e;
     offsetParent := offsetParent e;
     boundingClientRect := boundingClientRect e;
     computedStyle := computedStyle e |}.

(** The same element as a button of the given type: a button has no
    [readOnly] and no [checked]. *)
Definition button (e : Element) (ty : string) : Element :=
  {| nodeName := nodeName e; namespaceURI := namespaceURI e; attrs := attrs e;
     value := value e; type := JStr ty; disabled := JBool false; readOnly := JUndefined;
     checked := JUndefined; selected := JUndefined;
     innerText := innerText e;
     offsetParent := offsetParent e;
     boundingClientRect := boundingClientRect e;
     computedStyle := computedStyle e |}.

(** [<!DOCTYPE html><html><head></head><body>...</body></html>] *)
Definition page (body : list Node) : Document :=
  [ DocumentTypeNode "html";
    ElementNode (rendered "HTML" [] JUndefined "")
      [ ElementNode (rendered "HEAD" [] JUndefined "") [];
        ElementNode (rendered "BODY" [] JUndefined "") body ] ].

(** A login form, two links, a button with an aria-label and an input that
    nothing names. *)
Definition samplePage : Document :=
  page
    [ ElementNode (rendered "FORM" [("id", "login"); ("name", "login")] JUndefined "")
        [ ElementNode (rendered "LABEL" [("for", "user")] JUndefined "User name")
            [TextNode "User  name "];
          ElementNode
            (control (rendered "INPUT" [("id", "user"); ("name", "user");
                                        ("placeholder", "you@example.org")] (JStr "") "")
               "text" (JBool false)) [];
          ElementNode
            (control (rendered "INPUT" [("id", "agree"); ("aria-label", "I agree")]
                        (JStr "on") "")
               "checkbox" (JBool true)) [];
          ElementNode
            (button (rendered "BUTTON" [("id", "submit-btn"); ("class", "primary")]
                       (JStr "") "Send")
               "submit") [TextNode "Send"] ];
      ElementNode (rendered "DIV" [("class", "nav")] JUndefined "")
        [ ElementNode (rendered "A" [("href", "/")] JUndefined "Home") [TextNode " Home "];
          TextNode " | ";
          ElementNode (rendered "SPAN" [] JUndefined "") [];
          ElementNode (rendered "A" [("href", "/about")] JUndefined "About")
            [TextNode "About"] ];
      ElementNode
        (button (rendered "BUTTON" [("aria-label", "Submit Now")] (JStr "") "Go")
           "submit") [TextNode "Go"];
      ElementNode
        (control (rendered "INPUT" [("id", "x")] (JStr "") "") "text" (JBool false)) [] ].

(** What the script makes of it. *)
Definition sampleOutput : list (ref * ElementRecord.t) :=
  Eval vm_compute in
    match scan samplePage with
    | Ok out => out
    | Throw _ => []
    end.

(** An ordered list with an item that acts as a button:
    [<ol><li id="step3" role="button" value="3">Item</li></ol>]. The [value]
    of a list item is a number. *)
Definition listItem : Element :=
  rendered "LI" [("id", "step3"); ("role", "button"); ("value", "3")] (JNum 3) "Item".

Definition listItemPage : Document :=
  page [ ElementNode (rendered "OL" [] JUndefined "")
           [ ElementNode listItem [TextNode "Item"] ] ].

Definition goButton : Element :=
  Eval vm_compute in
    match elementAt samplePage [2; 1; 1] with Some e => e | None => listItem end.

Definition goRecord : ElementRecord.t :=
  Eval vm_compute in
    match sampleOutput !! 6 with Some p => snd p | None => assemble [] [] listItem "" "" "" end.

(** The record at a place of [sampleOutput], and the element at a
    reference of [samplePage]. *)
Definition sampleRecord (k : nat) : ElementRecord.t :=
  match sampleOutput !! k with
  | Some p => snd p
  | None => goRecord
  end.

Definition sampleElement (r : ref) : Element :=
  match elementAt samplePage r with
  | Some e => e
  | None => goButton
  end.

(** The context of the checkbox of [samplePage]: its parent is the form. *)
Definition agreeContext : Context.t :=
  Eval vm_compute in
    match getAncestorContext samplePage [2; 0; 1; 1] with
    | Some c => c
    | None => {| Context.tagName := EmptyString; Context.id := None; Context.role := None;
                 Context.ariaLabel := None; Context.form := None |}
    end.

(** The checkbox of [samplePage] beside the list item of [listItemPage]. *)
Definition agreeBox : Element :=
  control (rendered "INPUT" [("id", "agree"); ("aria-label", "I agree")] (JStr "on") "")
    "checkbox" (JBool true).

Definition mixedPage : Document :=
  page [ ElementNode agreeBox [];
         ElementNode (rendered "OL" [] JUndefined "")
           [ ElementNode listItem [TextNode "Item"] ] ].

(** A search field named by a label that holds one space:
    [<label for="q"> </label><input id="q" placeholder="Search">]. *)
Definition searchField : Element :=
  control (rendered "INPUT" [("id", "q"); ("placeholder", "Search")] (JStr "") "")
    "text" (JBool false).

Definition blankLabelPage : Document :=
  page [ ElementNode (rendered "LABEL" [("for", "q")] JUndefined "") [TextNode " "];
         ElementNode searchField [] ].

Definition blankLabelOutput : list (ref * ElementRecord.t) :=
  Eval vm_compute in
    match scan blankLabelPage with
    | Ok out => out
    | Throw _ => []
    end.

(** A stream of candidates that names a node twice. *)
Definition repeatedCandidates : list ref := [[2; 1; 1]; [3; 1; 1]; [2; 1; 1]; [3; 1; 1; 1]].

Definition repeatedOutput : list (ref * ElementRecord.t) :=
  Eval vm_compute in
    match scanCandidates samplePage repeatedCandidates with
    | Ok out => out
    | Throw _ => []
    end.

(** A [div] that acts as a button. *)
Definition menuButton : Element :=
  rendered "DIV" [("role", "button")] JUndefined "Menu".

(** A link drawn in an inline SVG image, and a link of the page after the
    image:
    [<svg><a href="/more"><text>More</text></a></svg><a href="/help">Help</a>]. *)
Definition svgLink : Element := foreign (Some SVG_NAMESPACE) "a" [("href", "/more")].

Definition helpLink : Element := rendered "A" [("href", "/help")] JUndefined "Help".

Definition svgPage : Document :=
  page [ ElementNode (foreign (Some SVG_NAMESPACE) "svg" [])
           [ ElementNode svgLink
               [ ElementNode (foreign (Some SVG_NAMESPACE) "text" []) [TextNode "More"] ] ];
         ElementNode helpLink [TextNode "Help"] ].

Definition svgOutput : list (ref * ElementRecord.t) :=
  Eval vm_compute in
    match scan svgPage with
    | Ok out => out
    | Throw _ => []
    end.

(** The same button with a processing instruction of the target [DIV]
    after it, and before it. *)
Definition instructionAfter : Document :=
  page [ ElementNode menuButton [TextNode "Menu"]; ProcessingInstruction "DIV" "" ].

Definition instructionBefore : Document :=
  page [ ProcessingInstruction "DIV" ""; ElementNode menuButton [TextNode "Menu"] ].

(** ** Proof devices *)

(** What holds of the two collections all along the pass. *)
Record scanInvariant (doc : Document) (st : ScanState) : Prop := {
  inv_processed : forall r,
    r ∈ processedElements st <-> exists rec, In (r, rec) (elementDetails st);
  inv_once : NoDup (map fst (elementDetails st));
  inv_described : forall r rec,
    In (r, rec) (elementDetails st) -> describe doc r = Ok (Some rec)
}.

(** Case analysis on the emptiness of a text, and simplification with the
    cases at hand. *)
Ltac empty_or_not s :=
  let E := fresh "E" in destruct (String.eqb s "") eqn:E.

Ltac by_emptiness :=
  repeat (simpl; match goal with
                 | H : String.eqb _ "" = _ |- _ => rewrite H
                 end);
  simpl; try reflexivity.

(** * Properties *)

(** ** Strings *)

Lemma isUpperNameChar_spec (c : ascii) :
  Str.isUpperNameChar c = true ->
  nat_of_ascii c < 128 /\ ~ (97 <= nat_of_ascii c <= 122)
  /\ nat_of_ascii c <> 47 /\ nat_of_ascii c <> 91.
Proof.
  unfold Str.isUpperNameChar, Str.isNameChar, Str.isNameStartChar, Str.isCapital,
    Str.isSmallLetter, Str.isDigit. cbv zeta.
  rewrite !andb_true_iff, !orb_true_iff, !andb_true_iff, negb_true_iff, andb_false_iff,
    !Nat.leb_le, !Nat.leb_gt, !Nat.eqb_eq. lia.
Qed.

Lemma nat_of_lowerChar (c : ascii) :
  nat_of_ascii c < 128 ->
  nat_of_ascii (Str.lowerChar c)
  = if Nat.leb 65 (nat_of_ascii c) && Nat.leb (nat_of_ascii c) 90
    then nat_of_ascii c + 32 else nat_of_ascii c.
Proof.
  intros H. unfold Str.lowerChar. cbv zeta.
  destruct (Nat.leb 65 (nat_of_ascii c) && Nat.leb (nat_of_ascii c) 90) eqn:U; cbn [orb].
  - apply andb_true_iff in U as [U1 U2]. apply Nat.leb_le in U1, U2.
    apply nat_ascii_embedding. lia.
  - destruct (Nat.leb 192 (nat_of_ascii c)) eqn:V; cbn [andb]; [|reflexivity].
    apply Nat.leb_le in V. lia.
Qed.

Lemma lowerChar_inj (c1 c2 : ascii) :
  Str.isUpperNameChar c1 = true -> Str.isUpperNameChar c2 = true ->
  Str.lowerChar c1 = Str.lowerChar c2 -> c1 = c2.
Proof.
  intros H1 H2 H.
  apply isUpperNameChar_spec in H1 as (L1 & N1 & _), H2 as (L2 & N2 & _).
  apply (f_equal nat_of_ascii) in H.
  rewrite !nat_of_lowerChar in H by assumption.
  rewrite <- (ascii_nat_embedding c1), <- (ascii_nat_embedding c2). f_equal.
  destruct (Nat.leb 65 (nat_of_ascii c1) && Nat.leb (nat_of_ascii c1) 90) eqn:U1;
    destruct (Nat.leb 65 (nat_of_ascii c2) && Nat.leb (nat_of_ascii c2) 90) eqn:U2;
    repeat match goal with
      | X : (_ && _) = true |- _ => apply andb_true_iff in X as [? ?]
      | X : (_ && _) = false |- _ => apply andb_false_iff in X as [?|?]
      | X : Nat.leb _ _ = true |- _ => apply Nat.leb_le in X
      | X : Nat.leb _ _ = false |- _ => apply Nat.leb_gt in X
      end; lia.
Qed.

Lemma nat_of_ascii_inj (a b : ascii) : nat_of_ascii a = nat_of_ascii b -> a = b.
Proof.
  intros H. rewrite <- (ascii_nat_embedding a), <- (ascii_nat_embedding b). now f_equal.
Qed.

Lemma lowerChar_idempotent (c : ascii) :
  nat_of_ascii c < 128 -> Str.lowerChar (Str.lowerChar c) = Str.lowerChar c.
Proof.
  intros H. apply nat_of_ascii_inj.
  pose proof (nat_of_lowerChar c H) as Hc.
  assert (Hlt : nat_of_ascii (Str.lowerChar c) < 128).
  { rewrite Hc.
    destruct (Nat.leb 65 (nat_of_ascii c) && Nat.leb (nat_of_ascii c) 90) eqn:U; [|exact H].
    apply andb_true_iff in U as [U1 U2]. apply Nat.leb_le in U1, U2. lia. }
  rewrite (nat_of_lowerChar _ Hlt).
  destruct (Nat.leb 65 (nat_of_ascii (Str.lowerChar c))
            && Nat.leb (nat_of_ascii (Str.lowerChar c)) 90) eqn:V; [|reflexivity].
  apply andb_true_iff in V as [V1 V2]. apply Nat.leb_le in V1, V2.
  rewrite Hc in V1, V2.
  destruct (Nat.leb 65 (nat_of_ascii c) && Nat.leb (nat_of_ascii c) 90) eqn:U.
  - apply andb_true_iff in U as [U1 U2]. apply Nat.leb_le in U1, U2. lia.
  - apply andb_false_iff in U as [U|U]; apply Nat.leb_gt in U; lia.
Qed.

Lemma toLowerCase_idempotent (s : string) :
  Str.forallChars Str.isUpperNameChar s = true ->
  Str.toLowerCase (Str.toLowerCase s) = Str.toLowerCase s.
Proof.
  induction s as [|c s IH]; simpl; [reflexivity|].
  intros H. apply andb_true_iff in H as [Hc Hs].
  apply isUpperNameChar_spec in Hc as (Hc & _).
  now rewrite (lowerChar_idempotent c Hc), (IH Hs).
Qed.

Lemma toLowerCase_inj (s1 s2 : string) :
  Str.forallChars Str.isUpperNameChar s1 = true ->
  Str.forallChars Str.isUpperNameChar s2 = true ->
  Str.toLowerCase s1 = Str.toLowerCase s2 -> s1 = s2.
Proof.
  revert s2. induction s1 as [|c1 s1 IH]; intros [|c2 s2]; simpl; try congruence.
  intros H1 H2 H.
  apply andb_true_iff in H1 as [C1 R1], H2 as [C2 R2].
  injection H as Hc Hs.
  f_equal; [now apply lowerChar_inj | now apply IH].
Qed.

(** ** White space *)

Lemma trimStart_replaceRuns_true (s : string) :
  Str.trimStart (Str.replaceRuns true s) = Str.replaceRuns true s.
Proof.
  induction s as [|c s IH]; simpl; [reflexivity|].
  destruct (Str.isWhiteSpace c) eqn:E; [exact IH|].
  simpl. now rewrite E.
Qed.

Lemma trimStart_replaceRuns (s : string) :
  Str.trimStart (Str.replaceRuns false s) = Str.replaceRuns true s.
Proof.
  destruct s as [|c s]; simpl; [reflexivity|].
  destruct (Str.isWhiteSpace c) eqn:E; simpl.
  - apply trimStart_replaceRuns_true.
  - now rewrite E.
Qed.

Lemma trimEnd_cons_word (c : ascii) (s : string) :
  Str.isWhiteSpace c = false -> Str.trimEnd (String c s) = String c (Str.trimEnd s).
Proof.
  intros E. simpl. destruct (Str.trimEnd s); [now rewrite E | reflexivity].
Qed.

Lemma trimEnd_cons_space (s : string) :
  Str.trimEnd (String " " s)
  = match Str.trimEnd s with
    | EmptyString => EmptyString
    | r => String " " r
    end.
Proof. simpl. now destruct (Str.trimEnd s). Qed.

Lemma words_cons_word (c : ascii) (s : string) :
  Str.isWhiteSpace c = false -> exists w ws, Str.words (String c s) = String c w :: ws.
Proof.
  intros E. simpl. rewrite E.
  destruct (Str.words s) as [|w ws], s as [|c' s']; try (now eexists; eexists).
  destruct (Str.isWhiteSpace c'); now eexists; eexists.
Qed.

Lemma words_head (s w : string) (ws : list string) :
  Str.words s = w :: ws -> exists a w', w = String a w'.
Proof.
  induction s as [|c s IH]; [discriminate|]. simpl.
  destruct (Str.isWhiteSpace c); [exact IH|].
  destruct (Str.words s) as [|w0 ws0], s as [|c' s']; try (intros [= <- _]; now eexists; eexists).
  destruct (Str.isWhiteSpace c'); intros [= <- _]; now eexists; eexists.
Qed.

(** The trimmed text with its runs of white space replaced is its words,
    one space between two of them. *)
Lemma trimEnd_replaceRuns (s : string) :
  Str.trimEnd (Str.replaceRuns true s) = Str.join " " (Str.words s).
Proof.
  unfold Str.join. induction s as [|c s IH]; [reflexivity|].
  cbn [Str.replaceRuns Str.words].
  destruct (Str.isWhiteSpace c) eqn:E; [exact IH|].
  rewrite (trimEnd_cons_word c _ E).
  destruct s as [|c' s']; [reflexivity|].
  destruct (Str.isWhiteSpace c') eqn:E'.
  - cbn [Str.replaceRuns Str.words] in IH |- *. rewrite E' in IH |- *.
    rewrite trimEnd_cons_space, IH.
    destruct (Str.words s') as [|w ws] eqn:Hw; [reflexivity|].
    destruct (words_head _ _ _ Hw) as (a & w' & ->).
    change (String.concat " " (String c "" :: String a w' :: ws))
      with (String c (String " " (String.concat " " (String a w' :: ws)))).
    now destruct ws.
  - destruct (words_cons_word c' s' E') as (w & ws & Hw).
    assert (Hr : Str.replaceRuns false (String c' s') = Str.replaceRuns true (String c' s')).
    { simpl. now rewrite E'. }
    rewrite Hr, IH, Hw.
    destruct ws; reflexivity.
Qed.

Lemma normalize_words (s : string) : Str.normalize s = Str.join " " (Str.words s).
Proof.
  unfold Str.normalize, Str.trim.
  now rewrite trimStart_replaceRuns, trimEnd_replaceRuns.
Qed.

(** ** The document tree *)

Lemma elementAt_lookup (doc : Document) (i : nat) (p : ref) (e : Element) :
  elementAt doc (i :: p) = Some e ->
  exists cs, childNodes doc p !! i = Some (ElementNode e cs).
Proof.
  unfold elementAt, nodeAt.
  destruct (childNodes doc p !! i) as [[e' cs| | | |]|]; try discriminate.
  intros [= ->]. now exists cs.
Qed.

(** Only the document and the elements have child nodes. *)
Lemma parent_of_child (doc : Document) (i : nat) (p : ref) (n : Node) :
  childNodes doc p !! i = Some n ->
  p = [] \/ exists e, elementAt doc p = Some e.
Proof.
  intros H. destruct p as [|j q]; [now left | right].
  unfold elementAt, nodeAt. simpl in H |- *.
  revert H.
  destruct (childNodes doc q !! j) as [[e' cs| | | |]|]; simpl;
    try (rewrite lookup_nil; discriminate).
  now exists e'.
Qed.

Lemma htmlChain_cons (doc : Document) (i : nat) (p : ref) :
  htmlChain doc (i :: p) = true ->
  htmlChain doc p = true
  /\ exists e, elementAt doc (i :: p) = Some e /\ isHTMLElement e = true.
Proof.
  unfold htmlChain. cbn [levelsOf]. rewrite forallb_app, andb_true_iff.
  intros [Hp Hr]. split; [exact Hp|]. simpl in Hr.
  destruct (elementAt doc (i :: p)) as [e|]; [|discriminate].
  apply andb_true_iff in Hr as [Hr _]. now exists e.
Qed.

Lemma parsedNames_childNodes (doc : Document) (r : ref) :
  parsedNames doc = true -> htmlChain doc r = true ->
  forallb parsedNode (childNodes doc r) = true.
Proof.
  intros H. induction r as [|i p IH]; intros Hr; [exact H|].
  apply htmlChain_cons in Hr as (Hp & e & He & Hhtml).
  destruct (elementAt_lookup _ _ _ _ He) as [cs Hi].
  cbn [childNodes nodeAt]. rewrite Hi.
  assert (Hn : parsedNode (ElementNode e cs) = true).
  { apply (proj1 (forallb_forall _ _) (IH Hp)).
    apply list_elem_of_In. eapply list_elem_of_lookup_2. exact Hi. }
  simpl in Hn. rewrite Hhtml in Hn.
  now apply andb_true_iff in Hn as [_ Hn].
Qed.

Lemma parsedNames_sibling (doc : Document) (p : ref) (n : Node) :
  parsedNames doc = true -> htmlChain doc p = true ->
  In n (childNodes doc p) -> parsedNode n = true.
Proof.
  intros H Hp Hin.
  exact (proj1 (forallb_forall _ _) (parsedNames_childNodes doc p H Hp) n Hin).
Qed.

Lemma parsedNames_elementAt (doc : Document) (r : ref) (e : Element) :
  parsedNames doc = true -> htmlChain doc r = true -> elementAt doc r = Some e ->
  isUpperName (nodeName e) = true.
Proof.
  intros H Hr He. destruct r as [|i p]; [discriminate|].
  apply htmlChain_cons in Hr as (Hp & e' & He' & Hhtml).
  rewrite He in He'. injection He' as <-.
  destruct (elementAt_lookup _ _ _ _ He) as [cs Hi].
  assert (Hn : parsedNode (ElementNode e cs) = true).
  { apply (parsedNames_sibling doc p); [exact H | exact Hp |].
    apply list_elem_of_In. eapply list_elem_of_lookup_2. exact Hi. }
  simpl in Hn. rewrite Hhtml in Hn.
  now apply andb_true_iff in Hn as [Hn _].
Qed.

(** ** The loops of getXPathForElement *)

Lemma countPreviousSiblings_spec (name : string) (l : list Node) (nb : nat) :
  countPreviousSiblings name l nb
  = nb + length (List.filter (sameNameElement name) l).
Proof.
  revert nb. induction l as [|s l IH]; intros nb; simpl; [lia|].
  rewrite IH. unfold sameNameElement.
  destruct (Z.eqb (nodeTypeOf s) ELEMENT_NODE && String.eqb (nodeNameOf s) name);
    simpl; lia.
Qed.

Lemma findNextSibling_spec (name : string) (l : list Node) :
  findNextSibling name l = existsb (sameName name) l.
Proof.
  induction l as [|s l IH]; simpl; [reflexivity|].
  unfold sameName at 1. now destruct (String.eqb (nodeNameOf s) name).
Qed.

Lemma filter_rev_length {A : Type} (f : A -> bool) (l : list A) :
  length (List.filter f (rev l)) = length (List.filter f l).
Proof.
  induction l as [|a l IH]; simpl; [reflexivity|].
  rewrite List.filter_app, length_app, IH. simpl.
  destruct (f a); simpl; lia.
Qed.

Lemma existsb_filter_length {A : Type} (f : A -> bool) (l : list A) :
  existsb f l = negb (Nat.eqb (length (List.filter f l)) 0).
Proof.
  induction l as [|a l IH]; simpl; [reflexivity|].
  destruct (f a); simpl; [reflexivity | exact IH].
Qed.

Lemma xpathPart_stepOf (doc : Document) (element : ref) (e : Element) :
  xpathPart doc element e = renderStep (stepOf doc element e).
Proof.
  unfold xpathPart, stepOf, renderStep.
  rewrite countPreviousSiblings_spec, findNextSibling_spec.
  cbn [stepName stepPosition Nat.add].
  destruct element as [|i p]; [reflexivity|].
  cbn [previousSiblings nextSiblings precededBySameName followedBySameName
         positionAmongSiblings].
  rewrite filter_rev_length, (existsb_filter_length _ (take i (childNodes doc p))).
  destruct (negb _ || existsb _ _); [|reflexivity].
  now rewrite Nat.add_1_r.
Qed.

Lemma xpathParts_stepsOf (doc : Document) (element : ref) (parts : list string) :
  xpathParts doc element parts = map renderStep (stepsOf doc element) ++ parts.
Proof.
  revert parts. induction element as [|i p IH]; intros parts; [reflexivity|].
  cbn [xpathParts stepsOf]. unfold elementAt.
  destruct (nodeAt doc (i :: p)) as [[e cs| | | |]|]; try reflexivity.
  rewrite IH, xpathPart_stepOf, map_app. simpl.
  now rewrite <- app_assoc.
Qed.

(** ** Evaluation of the synthesized path *)

Lemma selectChildren_app (name : string) (ctx : ref) (i : nat) (l1 l2 : list Node) :
  selectChildren name ctx i (l1 ++ l2)
  = selectChildren name ctx i l1 ++ selectChildren name ctx (i + length l1) l2.
Proof.
  revert i. induction l1 as [|c l1 IH]; intros i; simpl.
  - now rewrite Nat.add_0_r.
  - rewrite IH, <- app_assoc. do 3 f_equal. lia.
Qed.

Lemma selectChildren_length (name : string) (ctx : ref) (i : nat) (l : list Node) :
  length (selectChildren name ctx i l) = length (List.filter (nameTest name) l).
Proof.
  revert i. induction l as [|c l IH]; intros i; simpl; [reflexivity|].
  rewrite length_app, IH. now destruct (nameTest name c).
Qed.

Lemma selectChildren_none (name : string) (ctx : ref) (i : nat) (l : list Node) :
  (forall n, In n l -> nameTest name n = false) -> selectChildren name ctx i l = [].
Proof.
  revert i. induction l as [|c l IH]; intros i H; simpl; [reflexivity|].
  rewrite (H c) by now left. simpl. apply IH. intros n Hn. apply H. now right.
Qed.

(** For the name of an HTML element, the name test of the host and the
    comparison of the source agree on the nodes of a parsed document: on an
    HTML element both compare the names, and an element of another namespace
    passes neither. *)
Lemma nameTest_sameNameElement (e : Element) (n : Node) :
  isUpperName (nodeName e) = true ->
  parsedNode n = true ->
  nameTest (Str.toLowerCase (nodeName e)) n = sameNameElement (nodeName e) n.
Proof.
  intros He Hn. destruct n as [e' cs| | | |]; try reflexivity.
  simpl in Hn. unfold sameNameElement, nameTest, localName.
  destruct (isHTMLElement e') eqn:Hhtml.
  - apply andb_true_iff in Hn as [Hn _].
    apply andb_true_iff in He as [_ He], Hn as [_ Hn]. simpl.
    rewrite (toLowerCase_idempotent _ He).
    destruct (String.eqb (nodeName e') (nodeName e)) eqn:E.
    + apply String.eqb_eq in E. rewrite E. apply String.eqb_refl.
    + apply String.eqb_neq. intros C. apply String.eqb_neq in E. apply E.
      now apply toLowerCase_inj.
  - unfold isForeignName in Hn.
    destruct (namespaceURI e') as [ns|]; [|discriminate]. simpl.
    destruct (String.eqb (nodeName e') (nodeName e)) eqn:E; [|reflexivity].
    apply String.eqb_eq in E. rewrite E, He in Hn. discriminate.
Qed.

Lemma evalStep_stepOf (doc : Document) (i : nat) (p : ref) (e : Element) :
  parsedNames doc = true -> htmlChain doc (i :: p) = true ->
  elementAt doc (i :: p) = Some e ->
  evalStep doc (stepOf doc (i :: p) e) p = [i :: p].
Proof.
  intros H Hr He.
  destruct (elementAt_lookup _ _ _ _ He) as [cs Hi].
  assert (Hin : In (ElementNode e cs) (childNodes doc p)).
  { apply list_elem_of_In. eapply list_elem_of_lookup_2. exact Hi. }
  assert (Hup : isUpperName (nodeName e) = true).
  { now apply (parsedNames_elementAt doc (i :: p)). }
  apply htmlChain_cons in Hr as [Hp _].
  assert (Hsib : forall n, In n (childNodes doc p) ->
            nameTest (Str.toLowerCase (nodeName e)) n = sameNameElement (nodeName e) n).
  { intros n Hn. apply nameTest_sameNameElement; [exact Hup|].
    now apply (parsedNames_sibling doc p). }
  unfold evalStep, stepOf.
  cbn [stepName stepPosition positionAmongSiblings precededBySameName followedBySameName].
  set (name := Str.toLowerCase (nodeName e)).
  set (kids := childNodes doc p) in *.
  assert (Hlen : length (take i kids) = i).
  { apply length_take_le. apply lookup_lt_Some in Hi. lia. }
  assert (Hsel : selectChildren name p 0 kids
                 = selectChildren name p 0 (take i kids)
                   ++ (i :: p) :: selectChildren name p (S i) (drop (S i) kids)).
  { rewrite <- (take_drop_middle kids i _ Hi) at 1.
    rewrite selectChildren_app, Hlen. cbn [selectChildren Nat.add].
    subst name. rewrite (Hsib _ Hin). unfold sameNameElement. simpl.
    now rewrite String.eqb_refl. }
  assert (Hnb : length (selectChildren name p 0 (take i kids))
                = length (List.filter (sameNameElement (nodeName e)) (take i kids))).
  { rewrite selectChildren_length. f_equal. apply List.filter_ext_in.
    intros n Hn. apply Hsib. apply list_elem_of_In.
    apply list_elem_of_In in Hn. eapply (subseteq_take i kids). exact Hn. }
  rewrite (existsb_filter_length _ (take i kids)).
  set (nb := length (List.filter (sameNameElement (nodeName e)) (take i kids))) in *.
  destruct (negb (Nat.eqb nb 0) || existsb (sameName (nodeName e)) (drop (S i) kids)) eqn:Ex.
  - cbn [Nat.add]. rewrite Hsel.
    rewrite (list_lookup_middle _ _ _ nb) by (symmetry; exact Hnb). reflexivity.
  - apply orb_false_iff in Ex as [Ex1 Ex2].
    assert (nb = 0) as Hz by (destruct nb; [reflexivity | discriminate]).
    rewrite Hz in Hnb. apply nil_length_inv in Hnb.
    rewrite Hsel, Hnb. simpl. f_equal.
    apply selectChildren_none. intros n Hn.
    rewrite Hsib.
    2:{ apply list_elem_of_In. apply list_elem_of_In in Hn.
        eapply (subseteq_drop (S i) kids). exact Hn. }
    unfold sameNameElement.
    assert (Hs : sameName (nodeName e) n = false).
    { destruct (sameName (nodeName e) n) eqn:Es; [|reflexivity].
      rewrite <- Ex2. symmetry. apply existsb_exists. now exists n. }
    unfold sameName in Hs. rewrite Hs. apply andb_false_r.
Qed.

Lemma evalPath_snoc (doc : Document) (steps : list Step) (s : Step) :
  evalPath doc (steps ++ [s]) = flat_map (evalStep doc s) (evalPath doc steps).
Proof. unfold evalPath. now rewrite fold_left_app. Qed.

Lemma evalPath_stepsOf (doc : Document) (r : ref) :
  parsedNames doc = true -> htmlChain doc r = true ->
  evalPath doc (stepsOf doc r) = [r].
Proof.
  intros H. induction r as [|i p IH]; intros Hr; [reflexivity|].
  destruct (htmlChain_cons _ _ _ Hr) as (Hp & e & He & _).
  cbn [stepsOf]. rewrite He, evalPath_snoc, (IH Hp).
  simpl. rewrite app_nil_r. now apply evalStep_stepOf.
Qed.

(** ** The candidates *)

Lemma elementsUnder_element (e : Element) (cs : list Node) (r : ref) :
  elementsUnder (ElementNode e cs) r = r :: elementsAmong cs r 0.
Proof.
  simpl. f_equal. generalize 0. induction cs as [|c cs IH]; intros i; simpl; [reflexivity|].
  now rewrite IH.
Qed.

Lemma elementsAmong_lookup (cs : list Node) (parent : ref) (i j : nat) (n : Node) (x : ref) :
  cs !! j = Some n -> In x (elementsUnder n ((i + j) :: parent)) ->
  In x (elementsAmong cs parent i).
Proof.
  revert i j. induction cs as [|c cs IH]; intros i j Hj Hx; [discriminate|].
  simpl. apply in_or_app. destruct j as [|j]; simpl in Hj.
  - injection Hj as ->. left. now rewrite Nat.add_0_r in Hx.
  - right. apply (IH (S i) j Hj). now replace (S i + j) with (i + S j) by lia.
Qed.

Lemma elementsUnder_allElements (doc : Document) (r : ref) (n : Node) (x : ref) :
  nodeAt doc r = Some n -> In x (elementsUnder n r) -> In x (allElements doc).
Proof.
  revert n x. induction r as [|i p IH]; intros n x Hn Hx; [discriminate|].
  simpl in Hn. destruct p as [|j q].
  - simpl in Hn. now apply (elementsAmong_lookup doc [] 0 i n).
  - simpl in Hn.
    destruct (childNodes doc q !! j) as [m|] eqn:Em;
      [|rewrite lookup_nil in Hn; discriminate].
    destruct m as [e' cs'| | | |]; simpl in Hn; try (rewrite lookup_nil in Hn; discriminate).
    apply (IH (ElementNode e' cs') x); [exact Em|].
    rewrite elementsUnder_element. right.
    now apply (elementsAmong_lookup cs' (j :: q) 0 i n).
Qed.

(** Every element of the document is enumerated. *)
Lemma allElements_complete (doc : Document) (r : ref) (e : Element) :
  elementAt doc r = Some e -> In r (allElements doc).
Proof.
  unfold elementAt. intros H.
  destruct (nodeAt doc r) as [[e' cs| | | |]|] eqn:E; try discriminate.
  apply (elementsUnder_allElements doc r (ElementNode e' cs)); [exact E|].
  rewrite elementsUnder_element. now left.
Qed.

Lemma querySelectorAll_spec (doc : Document) (selector : Element -> bool) (r : ref) :
  In r (querySelectorAll doc selector)
  <-> exists e, elementAt doc r = Some e /\ selector e = true.
Proof.
  unfold querySelectorAll. rewrite List.filter_In. unfold matchesAt. split.
  - intros [_ H]. destruct (elementAt doc r) as [e|]; [|discriminate]. now exists e.
  - intros [e [He Hs]]. split; [now apply (allElements_complete doc r e)|].
    now rewrite He.
Qed.

(** ** The callback and the pass *)

Lemma visit_describe (doc : Document) (st : ScanState) (element : ref) :
  visit doc st element
  = if decide (element ∈ processedElements st) then Ok st
    else match describe doc element with
         | Ok (Some rec) =>
             Ok {| processedElements := {[ element ]} ∪ processedElements st;
                   elementDetails := elementDetails st ++ [(element, rec)] |}
         | Ok None => Ok st
         | Throw err => Throw err
         end.
Proof.
  unfold visit, describe.
  destruct (decide (element ∈ processedElements st)); [reflexivity|].
  destruct (elementAt doc element) as [e|]; [|reflexivity].
  destruct (isInvisible e); [reflexivity|].
  destruct (valueTextOf e) as [valueText|]; [|reflexivity]. simpl.
  destruct (labelTextOf doc element e) as [labelText|]; [|reflexivity]. simpl.
  now destruct (String.eqb (elementId e) "" && String.eqb _ "").
Qed.

Lemma scanInvariant_initial (doc : Document) : scanInvariant doc initialState.
Proof.
  split; simpl.
  - intros r. split; [intros H; now apply not_elem_of_empty in H | intros [rec []]].
  - constructor.
  - intros r rec [].
Qed.

Lemma visit_invariant (doc : Document) (st st' : ScanState) (element : ref) :
  scanInvariant doc st -> visit doc st element = Ok st' ->
  scanInvariant doc st'
  /\ (forall r, r ∈ processedElements st -> r ∈ processedElements st')
  /\ (forall rec, describe doc element = Ok (Some rec) -> element ∈ processedElements st').
Proof.
  intros Hinv. pose proof Hinv as [Hp Hn Hd]. rewrite visit_describe.
  destruct (decide (element ∈ processedElements st)) as [Hin|Hnin].
  { intros [= <-]. split; [exact Hinv|]. split; auto. }
  destruct (describe doc element) as [[rec|]|] eqn:E; try discriminate.
  - intros [= <-]. split; [split|split]; simpl.
    + intros r. split.
      * intros H. apply elem_of_union in H as [H|H].
        -- apply elem_of_singleton in H as ->. exists rec. apply in_or_app. right. now left.
        -- apply Hp in H as [rec' H]. exists rec'. apply in_or_app. now left.
      * intros [rec' H]. apply in_app_or in H as [H|[H|[]]].
        -- apply elem_of_union. right. apply Hp. now exists rec'.
        -- injection H as <- _. apply elem_of_union. left. now apply elem_of_singleton.
    + rewrite map_app. simpl. apply NoDup_app. repeat split.
      * exact Hn.
      * intros x Hx Hx'. apply list_elem_of_In in Hx, Hx'.
        destruct Hx' as [<-|[]]. apply Hnin. apply Hp.
        apply in_map_iff in Hx as [[r' rec'] [Heq Hin']]. simpl in Heq. subst r'.
        now exists rec'.
      * apply NoDup_singleton.
    + intros r rec' H. apply in_app_or in H as [H|[H|[]]]; [now apply Hd|].
      now injection H as <- <-.
    + intros r H. apply elem_of_union. now right.
    + intros _ _. apply elem_of_union. left. now apply elem_of_singleton.
  - intros [= <-]. split; [exact Hinv|]. split; [auto|discriminate].
Qed.

Lemma forEach_invariant (doc : Document) (l : list ref) (st st' : ScanState) :
  scanInvariant doc st -> forEach (visit doc) l st = Ok st' ->
  scanInvariant doc st'
  /\ (forall r, r ∈ processedElements st -> r ∈ processedElements st')
  /\ (forall r rec, In r l -> describe doc r = Ok (Some rec) -> r ∈ processedElements st').
Proof.
  revert st. induction l as [|element l IH]; intros st Hinv; simpl.
  - intros [= <-]. repeat split; try apply Hinv; auto. intros r rec [].
  - destruct (visit doc st element) as [st1|] eqn:E; [|discriminate]. simpl.
    intros H. destruct (visit_invariant _ _ _ _ Hinv E) as [Hinv1 [Hmono1 Hdone1]].
    destruct (IH st1 Hinv1 H) as [Hinv' [Hmono' Hdone']].
    repeat split; try apply Hinv'; auto.
    intros r rec [->|Hr] Hdesc; [|now apply (Hdone' r rec)].
    apply Hmono'. now apply (Hdone1 rec).
Qed.

(** The output of a pass that completes, over any stream of candidates. *)
Lemma scanCandidates_output (doc : Document) (candidates : list ref)
    (out : list (ref * ElementRecord.t)) :
  scanCandidates doc candidates = Ok out ->
  NoDup (map fst out)
  /\ (forall r rec, In (r, rec) out -> describe doc r = Ok (Some rec))
  /\ (forall r rec, In r candidates -> describe doc r = Ok (Some rec) -> In (r, rec) out).
Proof.
  unfold scanCandidates.
  destruct (forEach (visit doc) candidates initialState) as [st|] eqn:E; [|discriminate].
  simpl. intros [= <-].
  destruct (forEach_invariant _ _ _ _ (scanInvariant_initial doc) E) as [Hinv [_ Hdone]].
  repeat split; try apply Hinv.
  intros r rec Hr Hdesc.
  destruct (proj1 (inv_processed _ _ Hinv r) (Hdone r rec Hr Hdesc)) as [rec' Hin].
  pose proof (inv_described _ _ Hinv r rec' Hin) as Hd'.
  rewrite Hdesc in Hd'. now injection Hd' as <-.
Qed.

(** ** The filter and the texts *)

Lemma isInvisible_false (e : Element) :
  isInvisible e = false <-> passesVisibilityFilter e.
Proof.
  unfold isInvisible, passesVisibilityFilter.
  rewrite !orb_false_iff, !Z.eqb_neq, !String.eqb_neq.
  destruct (offsetParent e); intuition congruence.
Qed.

Lemma closest_element (doc : Document) (selector : Element -> bool) (r l : ref) :
  closest doc selector r = Some l ->
  exists e, elementAt doc l = Some e /\ selector e = true.
Proof.
  induction r as [|i p IH]; [discriminate|]. cbn [closest].
  destruct (elementAt doc (i :: p)) as [e|] eqn:He; [|discriminate].
  destruct (selector e) eqn:Hs; [|exact IH].
  intros [= <-]. now exists e.
Qed.

Lemma querySelector_element (doc : Document) (selector : Element -> bool) (l : ref) :
  querySelector doc selector = Some l ->
  exists e, elementAt doc l = Some e /\ selector e = true.
Proof.
  unfold querySelector. intros H. apply querySelectorAll_spec.
  destruct (querySelectorAll doc selector) as [|x xs]; [discriminate|].
  injection H as ->. now left.
Qed.

Lemma valueTextOf_ok (e : Element) (valueText : string) :
  valueTextOf e = Ok valueText -> valueText = ownValue e.
Proof.
  unfold valueTextOf, ownValue.
  destruct (value e) as [| |b|n|s| | |]; simpl;
    try (intros [= <-]; reflexivity);
    try (destruct b; simpl; intros [= <-]; reflexivity);
    try (destruct (Z.eqb n 0); simpl; intros [= <-]; reflexivity);
    try discriminate.
  destruct (String.eqb s "") eqn:E; simpl; intros [= <-]; [|reflexivity].
  apply String.eqb_eq in E. now subst s.
Qed.

Lemma empty_or_self (s : string) : (if String.eqb s "" then "" else s) = s.
Proof. destruct (String.eqb s "") eqn:E; [|reflexivity]. apply String.eqb_eq in E. now subst. Qed.

Lemma orString_empty_r (s : string) : orString s "" = s.
Proof. unfold orString. apply empty_or_self. Qed.

Lemma orElse_text (text : string) (rendering : option string) :
  default "" (orElse (orElse (Some text) rendering) (Some ""))
  = orString text (default "" rendering).
Proof.
  unfold orElse, orString.
  destruct (String.eqb text "") eqn:E; simpl; [|now rewrite E].
  destruct rendering as [s|]; simpl; [|reflexivity].
  destruct (String.eqb s "") eqn:Es; simpl; [|reflexivity].
  apply String.eqb_eq in Es. now subst.
Qed.

Lemma textOfLabel_ok (doc : Document) (label : ref) (text : string) :
  textOfLabel doc label = Ok text -> text = trimmedLabelText doc label.
Proof.
  unfold textOfLabel, trimmedLabelText.
  destruct (elementAt doc label) as [l|]; [|discriminate].
  unfold orElse, orString.
  destruct (String.eqb (textContent doc label) ""); [|now intros [= <-]].
  destruct (innerText l); [now intros [= <-] | discriminate].
Qed.

Lemma labelTextOf_ok (doc : Document) (element : ref) (e : Element) (labelText : string) :
  labelTextOf doc element e = Ok labelText ->
  labelText = firstNonEmpty [associatedLabelText doc e; enclosingLabelText doc element].
Proof.
  unfold labelTextOf, associatedLabelText, enclosingLabelText, querySelectorLabelFor.
  cbn [firstNonEmpty]. rewrite empty_or_self.
  destruct (String.eqb (elementId e) "") eqn:Eid; simpl.
  - destruct (closest doc isLabel element) as [parentLabel|]; [|now intros [= <-]].
    apply textOfLabel_ok.
  - destruct (Str.forallChars _ (elementId e)); simpl; [|discriminate].
    destruct (querySelector doc (isLabelFor (elementId e))) as [l|]; simpl.
    + destruct (textOfLabel doc l) as [text|] eqn:El; [|discriminate]. simpl.
      apply textOfLabel_ok in El. subst text.
      destruct (String.eqb (trimmedLabelText doc l) "") eqn:Et; [|now intros [= <-]].
      destruct (closest doc isLabel element) as [parentLabel|]; [apply textOfLabel_ok|].
      intros [= <-]. now apply String.eqb_eq in Et.
    + destruct (closest doc isLabel element) as [parentLabel|]; [|now intros [= <-]].
      apply textOfLabel_ok.
Qed.

Lemma or_chain (a p n : option string) (l v : string) :
  default "" (orElse (orElse (orElse (orElse (orElse a (Some l)) (Some v)) p) n) (Some ""))
  = firstNonEmpty [default "" a; l; v; default "" p; default "" n].
Proof.
  unfold orElse. cbn [firstNonEmpty].
  empty_or_not l; empty_or_not v;
    (destruct a as [a|]; [empty_or_not a|]);
    (destruct p as [p|]; [empty_or_not p|]);
    (destruct n as [n|]; [empty_or_not n|]);
    by_emptiness.
Qed.

(** The computed text is the first source that is not empty, normalized. *)
Lemma computedTextOf_spec (doc : Document) (element : ref) (e : Element)
    (valueText labelText : string) :
  valueTextOf e = Ok valueText ->
  labelTextOf doc element e = Ok labelText ->
  computedTextOf e labelText (orString (mainTextOf doc element e) valueText)
  = Str.normalize (firstNonEmpty (textSources doc element e)).
Proof.
  intros Hv Hl. apply valueTextOf_ok in Hv. apply labelTextOf_ok in Hl. subst.
  unfold computedTextOf, textSources. rewrite or_chain. f_equal.
  unfold mainTextOf, ownText. cbn [firstNonEmpty].
  rewrite orElse_text.
  set (own := Str.trim (orString (textContent doc element) (default "" (innerText e)))).
  unfold orString.
  empty_or_not (default "" (getAttribute e "aria-label"));
    empty_or_not (associatedLabelText doc e);
    empty_or_not (enclosingLabelText doc element);
    empty_or_not own;
    empty_or_not (ownValue e);
    by_emptiness.
Qed.

(** What the callback decides, in the words of the filter. *)
Lemma describe_accepts (doc : Document) (element : ref) (rec : ElementRecord.t) :
  describe doc element = Ok (Some rec)
  <-> exists e valueText labelText,
        elementAt doc element = Some e
        /\ passesVisibilityFilter e
        /\ valueTextOf e = Ok valueText
        /\ labelTextOf doc element e = Ok labelText
        /\ (elementId e <> ""
            \/ computedTextOf e labelText (orString (mainTextOf doc element e) valueText) <> "")
        /\ rec = assemble doc element e (orString (mainTextOf doc element e) valueText)
                   labelText
                   (computedTextOf e labelText (orString (mainTextOf doc element e) valueText)).
Proof.
  unfold describe. split.
  - destruct (elementAt doc element) as [e|]; [|discriminate].
    destruct (isInvisible e) eqn:Ev; [discriminate|].
    destruct (valueTextOf e) as [valueText|] eqn:Hv; [|discriminate]. simpl.
    destruct (labelTextOf doc element e) as [labelText|] eqn:Hl; [|discriminate]. simpl.
    destruct (String.eqb (elementId e) "") eqn:Eid; simpl.
    + destruct (String.eqb (computedTextOf _ _ _) "") eqn:Ec; [discriminate|].
      intros [= <-]. exists e, valueText, labelText.
      split; [reflexivity|]. split; [now apply isInvisible_false|].
      split; [exact Hv|]. split; [exact Hl|]. split; [|reflexivity].
      right. now apply String.eqb_neq.
    + intros [= <-]. exists e, valueText, labelText.
      split; [reflexivity|]. split; [now apply isInvisible_false|].
      split; [exact Hv|]. split; [exact Hl|]. split; [|reflexivity].
      left. now apply String.eqb_neq.
  - intros (e & valueText & labelText & He & Hvis & Hv & Hl & Hgate & ->).
    rewrite He. apply isInvisible_false in Hvis. rewrite Hvis, Hv. simpl. rewrite Hl. simpl.
    destruct Hgate as [Hid|Hct].
    + apply String.eqb_neq in Hid. now rewrite Hid.
    + apply String.eqb_neq in Hct. rewrite Hct. now rewrite andb_false_r.
Qed.

Lemma textOfLabel_completes (doc : Document) (selector : Element -> bool) (l : ref) :
  (forall r e, elementAt doc r = Some e -> isLabel e = true -> innerText e <> None) ->
  (exists e, elementAt doc l = Some e /\ isLabel e = true) ->
  exists text, textOfLabel doc l = Ok text.
Proof.
  intros Hall (e & He & Hl). unfold textOfLabel. rewrite He.
  pose proof (Hall l e He Hl) as Hi.
  unfold orElse. destruct (String.eqb (textContent doc l) ""); [|now eexists].
  destruct (innerText e); [now eexists | contradiction].
Qed.

(** The callback completes on an element when the labels of the document
    have a rendered text and, if the element is visible, its value is a
    string or falsy and its id does not break the label selector. *)
Lemma describe_completes (doc : Document) (element : ref) (e : Element) :
  (forall r l, elementAt doc r = Some l -> isLabel l = true -> innerText l <> None) ->
  elementAt doc element = Some e ->
  (passesVisibilityFilter e ->
     (truthy (value e) = true -> exists s, value e = JStr s)
     /\ Str.forallChars (fun c => negb (breaksQuotedString c)) (elementId e) = true) ->
  exists o, describe doc element = Ok o.
Proof.
  intros Hall He Hsafe. unfold describe. rewrite He.
  destruct (isInvisible e) eqn:Ev; [now eexists|].
  destruct (Hsafe (proj1 (isInvisible_false e) Ev)) as [Hv Hid].
  assert (exists valueText, valueTextOf e = Ok valueText) as [valueText ->].
  { unfold valueTextOf. destruct (truthy (value e)); [|now eexists].
    destruct (Hv eq_refl) as [s ->]. simpl. now eexists. }
  assert (Hparent : forall labelText,
            exists t, (if String.eqb labelText ""
                       then match closest doc isLabel element with
                            | Some parentLabel => textOfLabel doc parentLabel
                            | None => Ok labelText
                            end
                       else Ok labelText) = Ok t).
  { intros labelText. destruct (String.eqb labelText ""); [|now eexists].
    destruct (closest doc isLabel element) as [parentLabel|] eqn:Ec; [|now eexists].
    apply (textOfLabel_completes doc isLabel parentLabel Hall).
    exact (closest_element _ _ _ _ Ec). }
  assert (exists labelText, labelTextOf doc element e = Ok labelText) as [labelText ->].
  { unfold labelTextOf, querySelectorLabelFor. rewrite Hid.
    destruct (negb (String.eqb (elementId e) "")); cbn [bind]; [|apply (Hparent "")].
    destruct (querySelector doc (isLabelFor (elementId e))) as [l|] eqn:Eq;
      cbn [bind]; [|apply (Hparent "")].
    destruct (textOfLabel_completes doc isLabel l Hall) as [text ->];
      [|cbn [bind]; apply (Hparent text)].
    destruct (querySelector_element _ _ _ Eq) as (le & Hle & Hfor).
    exists le. split; [exact Hle|].
    unfold isLabelFor in Hfor. now apply andb_true_iff in Hfor as [Hfor _]. }
  simpl. destruct (String.eqb (elementId e) "" && String.eqb _ ""); now eexists.
Qed.

Lemma forEach_completes (doc : Document) (l : list ref) (st : ScanState) :
  (forall r, In r l -> exists o, describe doc r = Ok o) ->
  exists st', forEach (visit doc) l st = Ok st'.
Proof.
  revert st. induction l as [|r l IH]; intros st H; simpl; [now eexists|].
  rewrite visit_describe.
  destruct (decide (r ∈ processedElements st)); simpl.
  - apply IH. intros r' Hr'. apply H. now right.
  - destruct (H r (or_introl eq_refl)) as [[rec|] ->]; simpl;
      apply IH; intros r' Hr'; apply H; now right.
Qed.

(** ** The record of an accepted element *)

Lemma output_record (doc : Document) (candidates : list ref)
    (out : list (ref * ElementRecord.t)) (r : ref) (rec : ElementRecord.t) :
  scanCandidates doc candidates = Ok out -> In (r, rec) out ->
  exists e valueText labelText,
    elementAt doc r = Some e
    /\ passesVisibilityFilter e
    /\ valueTextOf e = Ok valueText
    /\ labelTextOf doc r e = Ok labelText
    /\ (elementId e <> ""
        \/ computedTextOf e labelText (orString (mainTextOf doc r e) valueText) <> "")
    /\ rec = assemble doc r e (orString (mainTextOf doc r e) valueText) labelText
               (computedTextOf e labelText (orString (mainTextOf doc r e) valueText)).
Proof.
  intros Hscan Hin.
  destruct (scanCandidates_output _ _ _ Hscan) as [_ [Hdesc _]].
  apply describe_accepts. now apply Hdesc.
Qed.

(** The output of the script, node by node: a candidate has a record exactly
    when the filter lets it pass and it has an id or a computed text. *)
Lemma scan_output_iff (doc : Document) (out : list (ref * ElementRecord.t)) (r : ref)
    (e : Element) :
  scan doc = Ok out ->
  elementAt doc r = Some e -> interactiveSelector e = true ->
  (exists rec, In (r, rec) out)
  <-> passesVisibilityFilter e
      /\ exists valueText labelText,
           valueTextOf e = Ok valueText
           /\ labelTextOf doc r e = Ok labelText
           /\ (elementId e <> ""
               \/ computedTextOf e labelText (orString (mainTextOf doc r e) valueText) <> "").
Proof.
  intros Hscan He Hsel. unfold scan in Hscan.
  destruct (scanCandidates_output _ _ _ Hscan) as [_ [Hdesc Hall]]. split.
  - intros [rec Hin]. apply Hdesc, describe_accepts in Hin.
    destruct Hin as (e' & vt & lt & He' & Hvis & Hv & Hl & Hgate & _).
    rewrite He in He'. injection He' as <-. split; [exact Hvis|]. now exists vt, lt.
  - intros [Hvis (vt & lt & Hv & Hl & Hgate)].
    eexists. apply Hall.
    + apply querySelectorAll_spec. now exists e.
    + apply describe_accepts. exists e, vt, lt. repeat split; try assumption; apply Hvis.
Qed.

(** The script completes on a document whose labels have a rendered text
    and whose visible candidates have a string or a falsy [value] and an id
    that does not break the label selector. *)
Lemma scan_completes (doc : Document) :
  (forall r l, elementAt doc r = Some l -> isLabel l = true -> innerText l <> None) ->
  (forall r e, elementAt doc r = Some e -> interactiveSelector e = true ->
     passesVisibilityFilter e ->
     (truthy (value e) = true -> exists s, value e = JStr s)
     /\ Str.forallChars (fun c => negb (breaksQuotedString c)) (elementId e) = true) ->
  exists out, scan doc = Ok out.
Proof.
  intros Hall Hsafe. unfold scan, scanCandidates.
  destruct (forEach_completes doc (querySelectorAll doc interactiveSelector) initialState)
    as [st ->].
  - intros r Hr. apply querySelectorAll_spec in Hr as [e [He Hsel]].
    apply (describe_completes doc r e Hall He). intros Hvis. now apply (Hsafe r e).
  - simpl. now eexists.
Qed.

Lemma plainIds_elementAt (doc : Document) (r : ref) (e : Element) :
  ordinaryDocument doc = true -> elementAt doc r = Some e ->
  Str.forallChars (fun c => negb (breaksQuotedString c)) (elementId e) = true.
Proof.
  unfold ordinaryDocument, plainIds. intros H He.
  apply andb_true_iff in H as [_ H].
  pose proof (proj1 (forallb_forall _ _) H r (allElements_complete doc r e He)) as Hr.
  cbv beta in Hr. rewrite He in Hr. unfold isPlainId in Hr.
  now apply andb_true_iff in Hr as [Hr _].
Qed.

(** The script completes on an ordinary document whose labels have a
    rendered text and whose visible candidates have a string or a falsy
    [value]. *)
Lemma scan_completes_on_ordinary (doc : Document) :
  ordinaryDocument doc = true ->
  (forall r l, elementAt doc r = Some l -> isLabel l = true -> innerText l <> None) ->
  (forall r e, elementAt doc r = Some e -> interactiveSelector e = true ->
     passesVisibilityFilter e -> truthy (value e) = true -> exists s, value e = JStr s) ->
  exists out, scan doc = Ok out.
Proof.
  intros Hord Hlabels Hvalues. apply scan_completes; [exact Hlabels|].
  intros r e He Hsel Hvis. split; [now apply (Hvalues r e)|].
  now apply (plainIds_elementAt doc r e).
Qed.

Lemma forEach_aborts (doc : Document) (l : list ref) (st : ScanState) (r : ref) (err : exn) :
  scanInvariant doc st -> In r l -> describe doc r = Throw err ->
  exists err', forEach (visit doc) l st = Throw err'.
Proof.
  revert st. induction l as [|x l IH]; intros st Hinv [] Hthrow.
  - subst x. simpl. rewrite visit_describe.
    destruct (decide (r ∈ processedElements st)) as [Hin|_].
    + apply (inv_processed _ _ Hinv) in Hin as [rec Hin].
      apply (inv_described _ _ Hinv) in Hin. congruence.
    + rewrite Hthrow. simpl. now eexists.
  - simpl. destruct (visit doc st x) as [st1|err1] eqn:E; simpl; [|now eexists].
    apply IH; [|assumption|assumption].
    now destruct (visit_invariant _ _ _ _ Hinv E).
Qed.

(** A visible candidate whose [value] is a number other than zero ends the
    script in an exception. *)
Lemma numeric_value_aborts_scan (doc : Document) (r : ref) (e : Element) (n : Z) :
  elementAt doc r = Some e -> interactiveSelector e = true ->
  passesVisibilityFilter e -> value e = JNum n -> n <> 0%Z ->
  describe doc r = Throw TypeError /\ exists err, scan doc = Throw err.
Proof.
  intros He Hsel Hvis Hv Hn.
  assert (Hd : describe doc r = Throw TypeError).
  { unfold describe. rewrite He. apply isInvisible_false in Hvis. rewrite Hvis.
    unfold valueTextOf. rewrite Hv. simpl. apply Z.eqb_neq in Hn. now rewrite Hn. }
  split; [exact Hd|]. unfold scan, scanCandidates.
  destruct (forEach_aborts doc (querySelectorAll doc interactiveSelector) initialState
              r TypeError (scanInvariant_initial doc)) as [err ->].
  - apply querySelectorAll_spec. now exists e.
  - exact Hd.
  - simpl. now eexists.
Qed.

(** ** The claims *)

(** C1. Every node that matches the selector set should have a record in
    the output exactly when the filter lets it pass and it has an id or a
    computed text. The list item of [listItemPage] matches the selector by
    its role, is rendered and has an id and a text; but its [value] is the
    number 3, [element.value.trim] is no function, and the script ends in a
    TypeError without any output. ([scan_output_iff] is the claim for the
    documents on which the script completes, and [numeric_value_aborts_scan]
    the failure for any such candidate.) *)
Theorem list_item_value_aborts_scan :
  elementAt listItemPage [0; 0; 1; 1] = Some listItem
  /\ interactiveSelector listItem = true
  /\ passesVisibilityFilter listItem
  /\ elementId listItem = "step3"
  /\ ownText listItemPage [0; 0; 1; 1] listItem = "Item"
  /\ describe listItemPage [0; 0; 1; 1] = Throw TypeError
  /\ scan listItemPage = Throw TypeError.
Proof.
  repeat split; try reflexivity; try (vm_compute; discriminate).
Qed.

(** C3, as the specification has it, fails: the priority list read with
    every source tested for emptiness as it stands. The search field of
    [blankLabelPage] has no aria-label, and the label that names it holds one
    space: that text is the first source that is not empty, and normalized
    it is the empty text. The script trims the text of a label before it
    tests it, passes on, and computes "Search" from the placeholder. *)
Lemma blank_label_is_skipped :
  scan blankLabelPage = Ok blankLabelOutput
  /\ elementAt blankLabelPage [1; 1; 1] = Some searchField
  /\ firstNonEmpty (untrimmedSources blankLabelPage [1; 1; 1] searchField) = " "
  /\ Str.normalize " " = ""
  /\ exists rec,
       In ([1; 1; 1], rec) blankLabelOutput
       /\ Text.computedText (ElementRecord.text rec) = "Search".
Proof.
  split; [reflexivity|]. split; [reflexivity|]. split; [reflexivity|].
  split; [reflexivity|].
  eexists. split; [left; reflexivity | reflexivity].
Qed.

(** C3, amended. On a document in which no element is named like a property
    the script reads and every id is plain, the computed text of a record is
    the first source that is not empty, in the order aria-label, text of the
    label associated by the id, text of the enclosing label, own text
    content, own value, placeholder, name, where an attribute (aria-label,
    placeholder, name) is tested for emptiness as it is and a text of a
    label, of the element or of its value after trimming; its white space is
    then normalized: the words of that source with one space between two of
    them. An element whose aria-label is "Submit Now" gets the computed text
    "Submit Now" whatever its text. *)
Theorem computedText_is_first_source (doc : Document) (candidates : list ref)
    (out : list (ref * ElementRecord.t)) (r : ref) (rec : ElementRecord.t) (e : Element) :
  ordinaryDocument doc = true ->
  scanCandidates doc candidates = Ok out -> In (r, rec) out ->
  elementAt doc r = Some e ->
  Text.computedText (ElementRecord.text rec)
  = Str.join " " (Str.words (firstNonEmpty (textSources doc r e)))
  /\ (getAttribute e "aria-label" = Some "Submit Now" ->
      Text.computedText (ElementRecord.text rec) = "Submit Now").
Proof.
  intros _ Hscan Hin He.
  destruct (output_record _ _ _ _ _ Hscan Hin)
    as (e' & vt & lt & He' & _ & Hv & Hl & _ & ->).
  rewrite He in He'. injection He' as <-.
  cbn [assemble ElementRecord.text Text.computedText].
  rewrite (computedTextOf_spec doc r e vt lt Hv Hl). split; [apply normalize_words|].
  intros Ha. unfold textSources. rewrite Ha. reflexivity.
Qed.

Lemma computedText_is_first_source_witness :
  Text.computedText (ElementRecord.text goRecord) = "Submit Now".
Proof.
  apply (computedText_is_first_source samplePage
           (querySelectorAll samplePage interactiveSelector) sampleOutput
           [2; 1; 1] goRecord goButton).
  - reflexivity.
  - reflexivity.
  - vm_compute. tauto.
  - reflexivity.
  - reflexivity.
Defined.

(** C4, as the specification has it, fails: the input of [samplePage] that
    nothing names but its id survives the filter, and the computed text of
    its record is empty. *)
Lemma computedText_may_be_empty :
  scan samplePage = Ok sampleOutput
  /\ In ([3; 1; 1], sampleRecord 7) sampleOutput
  /\ Text.computedText (ElementRecord.text (sampleRecord 7)) = "".
Proof.
  split; [reflexivity|]. split; [|reflexivity].
  vm_compute. tauto.
Qed.

(** C4, amended. On a document in which no element is named like a property
    the script reads and every id is plain, every record of the output has
    a computed text that is not empty or an id that is a string and not
    empty: the computed text is not empty whenever [attributes.id] is
    null. *)
Theorem computedText_or_id_not_empty (doc : Document) (candidates : list ref)
    (out : list (ref * ElementRecord.t)) (r : ref) (rec : ElementRecord.t) :
  ordinaryDocument doc = true ->
  scanCandidates doc candidates = Ok out -> In (r, rec) out ->
  (exists i, Attributes.id (ElementRecord.attributes rec) = Some i /\ i <> "")
  \/ Text.computedText (ElementRecord.text rec) <> "".
Proof.
  intros _ Hscan Hin.
  destruct (output_record _ _ _ _ _ Hscan Hin)
    as (e & vt & lt & _ & _ & _ & _ & Hgate & ->).
  cbn [assemble ElementRecord.attributes ElementRecord.text Attributes.id Text.computedText].
  destruct Hgate as [Hid|Hct]; [left | now right].
  exists (elementId e). split; [|exact Hid].
  unfold orNull. apply String.eqb_neq in Hid. now rewrite Hid.
Qed.

Lemma computedText_or_id_not_empty_witness :
  (exists i, Attributes.id (ElementRecord.attributes (sampleRecord 7)) = Some i /\ i <> "")
  \/ Text.computedText (ElementRecord.text (sampleRecord 7)) <> "".
Proof.
  apply (computedText_or_id_not_empty samplePage
           (querySelectorAll samplePage interactiveSelector) sampleOutput [3; 1; 1]).
  - reflexivity.
  - reflexivity.
  - vm_compute. tauto.
Defined.

(** C5. No node has two records in the output of a pass, whatever the
    stream of candidates and however often it names a node: the set
    [processedElements], empty when the pass starts, makes the callback
    return at a node that has its record. *)
Theorem no_node_twice (doc : Document) (candidates : list ref)
    (out : list (ref * ElementRecord.t)) :
  scanCandidates doc candidates = Ok out ->
  NoDup (map fst out)
  /\ forall r rec rec', In (r, rec) out -> In (r, rec') out -> rec = rec'.
Proof.
  intros Hscan.
  destruct (scanCandidates_output _ _ _ Hscan) as [Hnd [Hdesc _]].
  split; [exact Hnd|].
  intros r rec rec' H H'. apply Hdesc in H, H'. congruence.
Qed.

Lemma no_node_twice_witness :
  NoDup (map fst repeatedOutput)
  /\ forall r rec rec', In (r, rec) repeatedOutput -> In (r, rec') repeatedOutput -> rec = rec'.
Proof.
  apply (no_node_twice samplePage repeatedCandidates repeatedOutput).
  reflexivity.
Defined.

(** C7. On a document in which no element is named like a property the
    script reads, for an element with an id that is not empty the path is
    the shortcut [//*[@id='ID']], with the id as it is; no other element is
    looked at. The id "submit-btn" gives [//*[@id='submit-btn']]. (The
    script reads the property [element.id]: on a form with a control named
    [id] that is the control, not the id of the form, and the shortcut is
    written with the text of that object; such a document is outside
    [unshadowed].) *)
Theorem xpath_of_element_with_id (doc : Document) (r : ref) (e : Element) :
  unshadowed doc = true ->
  elementAt doc r = Some e -> elementId e <> "" ->
  getXPathForElement doc (Some r) = Some ("//*[@id='" +:+ elementId e +:+ "']")
  /\ (elementId e = "submit-btn" ->
      getXPathForElement doc (Some r) = Some "//*[@id='submit-btn']").
Proof.
  intros _ He Hid. unfold getXPathForElement. rewrite He.
  apply String.eqb_neq in Hid. rewrite Hid. simpl. split; [reflexivity|].
  now intros ->.
Qed.

Lemma xpath_of_element_with_id_witness :
  getXPathForElement samplePage (Some [3; 0; 1; 1]) = Some "//*[@id='submit-btn']".
Proof.
  apply (xpath_of_element_with_id samplePage [3; 0; 1; 1] (sampleElement [3; 0; 1; 1])).
  - reflexivity.
  - reflexivity.
  - vm_compute. discriminate.
  - reflexivity.
Defined.

Lemma xpathParts_empty (doc : Document) (r : ref) :
  xpathParts doc r [] = [] <-> elementAt doc r = None.
Proof.
  rewrite xpathParts_stepsOf, app_nil_r.
  destruct r as [|i p]; [now split|].
  cbn [stepsOf]. destruct (elementAt doc (i :: p)) as [e|]; [|now split].
  split; [|discriminate].
  rewrite map_app. intros H. apply app_eq_nil in H as [_ H]. discriminate.
Qed.




(** The scenario of C9, for the pages on which the script completes: on an
    ordinary document whose labels have a rendered text and whose visible
    candidates have a string or a falsy [value], a rendered checkbox input
    whose id is "agree", that no label names or encloses, whose aria-label
    is "I agree" and which is checked, has a record in the output with
    [attributes.type] "checkbox", [state.isChecked] true and the computed
    text "I agree". *)
Lemma checked_checkbox_record (doc : Document) (r : ref) (e : Element) :
  ordinaryDocument doc = true ->
  (forall r' l, elementAt doc r' = Some l -> isLabel l = true -> innerText l <> None) ->
  (forall r' e', elementAt doc r' = Some e' -> interactiveSelector e' = true ->
     passesVisibilityFilter e' -> truthy (value e') = true -> exists s, value e' = JStr s) ->
  elementAt doc r = Some e ->
  isHTMLElement e = true ->
  tagName e = "INPUT" ->
  type e = JStr "checkbox" ->
  elementId e = "agree" ->
  querySelector doc (isLabelFor "agree") = None ->
  closest doc isLabel r = None ->
  getAttribute e "aria-label" = Some "I agree" ->
  checked e = JBool true ->
  passesVisibilityFilter e ->
  exists out rec,
    scan doc = Ok out
    /\ In (r, rec) out
    /\ Attributes.type (ElementRecord.attributes rec) = JStr "checkbox"
    /\ State.isChecked (ElementRecord.state rec) = JBool true
    /\ Text.computedText (ElementRecord.text rec) = "I agree".
Proof.
  intros Hord Hlabels Hvalues He Hhtml Htag Hty Hid Hfor Hencl Haria Hchk Hvis.
  assert (Hsel : interactiveSelector e = true).
  { unfold interactiveSelector, localName. unfold tagName in Htag.
    rewrite Hhtml, Htag. reflexivity. }
  assert (exists vt, valueTextOf e = Ok vt) as [vt Hvt].
  { unfold valueTextOf. destruct (truthy (value e)) eqn:Ht; [|now eexists].
    destruct (Hvalues r e He Hsel Hvis Ht) as [v ->]. simpl. now eexists. }
  assert (Hlt : labelTextOf doc r e = Ok "").
  { unfold labelTextOf, querySelectorLabelFor. rewrite Hid. simpl.
    now rewrite Hfor, Hencl. }
  assert (Hct : computedTextOf e "" (orString (mainTextOf doc r e) vt) = "I agree").
  { rewrite (computedTextOf_spec doc r e vt "" Hvt Hlt).
    unfold textSources. rewrite Haria. reflexivity. }
  assert (Hdesc : describe doc r
                  = Ok (Some (assemble doc r e (orString (mainTextOf doc r e) vt) ""
                                (computedTextOf e "" (orString (mainTextOf doc r e) vt))))).
  { apply describe_accepts. exists e, vt, "".
    split; [exact He|]. split; [exact Hvis|]. split; [exact Hvt|]. split; [exact Hlt|].
    split; [|reflexivity]. left. rewrite Hid. discriminate. }
  destruct (scan_completes_on_ordinary doc Hord Hlabels Hvalues) as [out Hscan].
  exists out. eexists. split; [exact Hscan|]. split.
  - unfold scan in Hscan.
    destruct (scanCandidates_output _ _ _ Hscan) as [_ [_ Hall]].
    apply Hall; [|exact Hdesc].
    apply querySelectorAll_spec. now exists e.
  - cbn [assemble ElementRecord.attributes ElementRecord.state ElementRecord.text
           Attributes.type State.isChecked Text.computedText].
    rewrite Htag. simpl. split; [exact Hty|]. split; [exact Hchk | exact Hct].
Qed.

(** C9. The scenario does not hold on every page that has the checkbox. On
    [mixedPage] the checkbox is as the scenario has it, and the callback
    makes the record of the scenario for it; but the page also has the list
    item of C1, whose [value] is a number: the script ends in a TypeError
    there and no record is output, that of the checkbox no more than any
    other. *)
Theorem checkbox_beside_list_item_gets_no_record :
  elementAt mixedPage [0; 1; 1] = Some agreeBox
  /\ tagName agreeBox = "INPUT"
  /\ type agreeBox = JStr "checkbox"
  /\ elementId agreeBox = "agree"
  /\ querySelector mixedPage (isLabelFor "agree") = None
  /\ closest mixedPage isLabel [0; 1; 1] = None
  /\ getAttribute agreeBox "aria-label" = Some "I agree"
  /\ checked agreeBox = JBool true
  /\ passesVisibilityFilter agreeBox
  /\ (exists rec,
        describe mixedPage [0; 1; 1] = Ok (Some rec)
        /\ Attributes.type (ElementRecord.attributes rec) = JStr "checkbox"
        /\ State.isChecked (ElementRecord.state rec) = JBool true
        /\ Text.computedText (ElementRecord.text rec) = "I agree")
  /\ elementAt mixedPage [0; 1; 1; 1] = Some listItem
  /\ describe mixedPage [0; 1; 1; 1] = Throw TypeError
  /\ scan mixedPage = Throw TypeError.
Proof.
  do 8 (split; [reflexivity|]).
  split; [repeat split; vm_compute; discriminate|].
  split; [eexists; repeat split; reflexivity|].
  repeat split; reflexivity.
Qed.

(** C10. [attributes.type] of a record is the [type] property of the element
    when the tag of the record is "input", and null for every other tag,
    select, textarea and button among them: a type that is not null belongs
    to an input. *)
Theorem type_only_for_input (doc : Document) (candidates : list ref)
    (out : list (ref * ElementRecord.t)) (r : ref) (rec : ElementRecord.t) (e : Element) :
  scanCandidates doc candidates = Ok out -> In (r, rec) out ->
  elementAt doc r = Some e ->
  ElementRecord.tagName rec = Str.toLowerCase (tagName e)
  /\ (ElementRecord.tagName rec = "input" ->
      Attributes.type (ElementRecord.attributes rec) = type e)
  /\ (ElementRecord.tagName rec <> "input" ->
      Attributes.type (ElementRecord.attributes rec) = JNull)
  /\ (Attributes.type (ElementRecord.attributes rec) <> JNull ->
      ElementRecord.tagName rec = "input").
Proof.
  intros Hscan Hin He.
  destruct (output_record _ _ _ _ _ Hscan Hin)
    as (e' & vt & lt & He' & _ & _ & _ & _ & ->).
  rewrite He in He'. injection He' as <-.
  cbn [assemble ElementRecord.tagName ElementRecord.attributes Attributes.type].
  destruct (String.eqb (Str.toLowerCase (tagName e)) "input") eqn:E.
  - apply String.eqb_eq in E. repeat split; congruence.
  - apply String.eqb_neq in E. repeat split; congruence.
Qed.

Lemma type_only_for_input_witness :
  ElementRecord.tagName (sampleRecord 3) = "button"
  /\ (ElementRecord.tagName (sampleRecord 3) = "input" ->
      Attributes.type (ElementRecord.attributes (sampleRecord 3))
      = type (sampleElement [3; 0; 1; 1]))
  /\ (ElementRecord.tagName (sampleRecord 3) <> "input" ->
      Attributes.type (ElementRecord.attributes (sampleRecord 3)) = JNull)
  /\ (Attributes.type (ElementRecord.attributes (sampleRecord 3)) <> JNull ->
      ElementRecord.tagName (sampleRecord 3) = "input").
Proof.
  apply (type_only_for_input samplePage
           (querySelectorAll samplePage interactiveSelector) sampleOutput
           [3; 0; 1; 1] (sampleRecord 3) (sampleElement [3; 0; 1; 1])).
  - reflexivity.
  - vm_compute. tauto.
  - reflexivity.
Defined.

(** ** Serialization *)

Lemma jsval_induction (P : jsval -> Prop) :
  P JUndefined -> P JNull -> (forall b, P (JBool b)) -> (forall n, P (JNum n)) ->
  (forall s, P (JStr s)) ->
  (forall items, Forall P items -> P (JArr items)) ->
  (forall props, Forall (fun p => P (snd p)) props -> P (JObj props)) ->
  (forall interface, P (JHost interface)) ->
  forall v, P v.
Proof.
  intros Hu Hn Hb Hz Hs Ha Ho Hh.
  fix IH 1.
  intros [| |b|n|s|items|props|interface];
    [exact Hu | exact Hn | apply Hb | apply Hz | apply Hs | | | apply Hh].
  - apply Ha. induction items as [|item items IHitems]; constructor; [apply IH | exact IHitems].
  - apply Ho. induction props as [|[k v] props IHprops]; constructor; [apply IH | exact IHprops].
Qed.

Lemma stringify_none (v : jsval) : JSON.stringify v = None <-> v = JUndefined.
Proof. destruct v; simpl; split; congruence. Qed.

(** Re-parsing the text of a value gives the value without its [undefined]
    parts. *)
Lemma parse_stringify (v : jsval) (j : json) :
  JSON.stringify v = Some j -> JSON.parse j = withoutUndefined v.
Proof.
  revert j. induction v as [| | | | |items IH|props IH|] using jsval_induction;
    intros j; simpl; try (intros [= <-]; reflexivity).
  - intros [= <-]. simpl. f_equal. rewrite map_map.
    induction IH as [|item items Hitem _ IHitems]; simpl; [reflexivity|].
    f_equal; [|exact IHitems].
    destruct (JSON.stringify item) as [j|] eqn:E.
    + simpl. rewrite (Hitem j eq_refl). destruct item; try reflexivity. discriminate.
    + apply stringify_none in E. now subst.
  - intros [= <-]. simpl. f_equal.
    induction IH as [|[k v] props Hv _ IHprops]; simpl; [reflexivity|].
    simpl in Hv. destruct (JSON.stringify v) as [j|] eqn:E.
    + simpl. rewrite (Hv j eq_refl), IHprops. destruct v; try reflexivity. discriminate.
    + apply stringify_none in E. now subst.
Qed.

Lemma withoutUndefined_defined (v : jsval) :
  defined v = true -> withoutUndefined v = v.
Proof.
  induction v as [| | | | |items IH|props IH|] using jsval_induction; simpl;
    try reflexivity; try discriminate.
  - intros H. f_equal.
    induction IH as [|item items Hitem _ IHitems]; simpl in *; [reflexivity|].
    apply andb_true_iff in H as [H1 H2].
    rewrite (IHitems H2). f_equal.
    destruct item; try reflexivity; try discriminate; now apply Hitem.
  - intros H. f_equal.
    induction IH as [|[k v] props Hv _ IHprops]; simpl in *; [reflexivity|].
    apply andb_true_iff in H as [H1 H2].
    rewrite (IHprops H2).
    destruct v; try reflexivity; try discriminate; now rewrite (Hv H1).
Qed.

Lemma reparse_output (out : list (ref * ElementRecord.t)) :
  JSON.reparse (valueOfOutput out)
  = Some (JArr (map (fun p => withoutUndefined (valueOfRecord (snd p))) out)).
Proof.
  unfold JSON.reparse.
  destruct (JSON.stringify (valueOfOutput out)) as [j|] eqn:E; [|discriminate].
  rewrite (parse_stringify _ _ E). unfold valueOfOutput.
  cbn [withoutUndefined]. do 2 f_equal.
  rewrite map_map. apply map_ext. intros [r rec]. reflexivity.
Qed.

Lemma getProperty_withoutUndefined (k : string) (v : jsval) (rest : list (string * jsval))
    (key : string) :
  getProperty (withoutUndefined (JObj ((k, v) :: rest))) key
  = if String.eqb k key
    then match present v with
         | Some v' => Some v'
         | None => getProperty (withoutUndefined (JObj rest)) key
         end
    else getProperty (withoutUndefined (JObj rest)) key.
Proof.
  destruct v; simpl; destruct (String.eqb k key); reflexivity.
Qed.

Lemma reparsed_state (a b c d : jsval) (h : bool) :
  let state := withoutUndefined
                 (JObj [("isDisabled", a); ("isReadOnly", b); ("isChecked", c);
                        ("isSelected", d); ("isHiddenByAria", JBool h)]) in
  getProperty state "isDisabled" = present a
  /\ getProperty state "isReadOnly" = present b
  /\ getProperty state "isChecked" = present c
  /\ getProperty state "isSelected" = present d
  /\ getProperty state "isHiddenByAria" = Some (JBool h).
Proof.
  cbv zeta. rewrite !getProperty_withoutUndefined. cbn [String.eqb Ascii.eqb Bool.eqb].
  repeat split; try reflexivity.
  - now destruct (present a).
  - now destruct (present b).
  - now destruct (present c).
  - now destruct (present d).
Qed.

Lemma option_eta_id {A : Type} (o : option A) :
  match o with Some a => Some a | None => None end = o.
Proof. now destruct o. Qed.

Lemma defined_ofString (o : option string) : defined (ofString o) = true.
Proof. now destruct o. Qed.

Lemma defined_valueOfContext (c : option Context.t) : defined (valueOfContext c) = true.
Proof.
  destruct c as [[t i r a [f|]]|]; cbn [valueOfContext Context.form app]; try reflexivity;
    cbn [defined forallb snd valueOfForm]; now rewrite !defined_ofString.
Qed.

Lemma defined_valueOfRecord (rec : ElementRecord.t) :
  defined (valueOfRecord rec) = definedRecord rec.
Proof.
  unfold valueOfRecord, definedRecord. cbn [defined forallb snd].
  rewrite !defined_ofString, defined_valueOfContext.
  rewrite !andb_true_r. cbn [andb]. now rewrite !andb_assoc.
Qed.

(** C6, as the specification has it, fails: the first link of [samplePage]
    has a record whose [state.isDisabled] holds [undefined] in memory (a link
    has no such property); the serialized record has no such field, and the
    record read back is not the record in memory. *)
Lemma serialized_link_lacks_state_fields :
  scan samplePage = Ok sampleOutput
  /\ In ([0; 1; 1; 1], sampleRecord 4) sampleOutput
  /\ getPath (valueOfRecord (sampleRecord 4)) ["state"; "isDisabled"] = Some JUndefined
  /\ exists items item,
       JSON.reparse (valueOfOutput sampleOutput) = Some (JArr items)
       /\ items !! 4 = Some item
       /\ getPath item ["state"; "isDisabled"] = None
       /\ item <> valueOfRecord (sampleRecord 4).
Proof.
  split; [reflexivity|]. split; [vm_compute; tauto|]. split; [reflexivity|].
  eexists. eexists. split; [vm_compute; reflexivity|].
  split; [reflexivity|]. split; [reflexivity|].
  vm_compute. discriminate.
Qed.

Lemma getPath_state (rec : ElementRecord.t) (key : string) :
  getPath (withoutUndefined (valueOfRecord rec)) ["state"; key]
  = getProperty
      (withoutUndefined
         (JObj [("isDisabled", State.isDisabled (ElementRecord.state rec));
                ("isReadOnly", State.isReadOnly (ElementRecord.state rec));
                ("isChecked", State.isChecked (ElementRecord.state rec));
                ("isSelected", State.isSelected (ElementRecord.state rec));
                ("isHiddenByAria", JBool (State.isHiddenByAria (ElementRecord.state rec)))]))
      key.
Proof.
  unfold valueOfRecord. cbn [getPath]. do 3 rewrite getProperty_withoutUndefined.
  cbn [String.eqb Ascii.eqb Bool.eqb present]. apply option_eta_id.
Qed.

Lemma getPath_type (rec : ElementRecord.t) :
  getPath (withoutUndefined (valueOfRecord rec)) ["attributes"; "type"]
  = present (Attributes.type (ElementRecord.attributes rec)).
Proof.
  unfold valueOfRecord. cbn [getPath]. rewrite !getProperty_withoutUndefined.
  cbn [String.eqb Ascii.eqb Bool.eqb present].
  rewrite !getProperty_withoutUndefined.
  cbn [String.eqb Ascii.eqb Bool.eqb].
  destruct (Attributes.id (ElementRecord.attributes rec)),
    (Attributes.class (ElementRecord.attributes rec)),
    (Attributes.name (ElementRecord.attributes rec));
    cbn [ofString present];
    now destruct (present (Attributes.type (ElementRecord.attributes rec))).
Qed.

Lemma getPath_class (rec : ElementRecord.t) :
  getPath (withoutUndefined (valueOfRecord rec)) ["attributes"; "class"]
  = present (Attributes.class (ElementRecord.attributes rec)).
Proof.
  unfold valueOfRecord. cbn [getPath]. rewrite !getProperty_withoutUndefined.
  cbn [String.eqb Ascii.eqb Bool.eqb present].
  rewrite !getProperty_withoutUndefined.
  cbn [String.eqb Ascii.eqb Bool.eqb].
  destruct (Attributes.id (ElementRecord.attributes rec));
    cbn [ofString present];
    now destruct (present (Attributes.class (ElementRecord.attributes rec))).
Qed.

(** The class of an SVG element is an object of the host; the text has the
    empty object in its place. *)
Lemma svg_class_comes_back_empty :
  scan svgPage = Ok svgOutput
  /\ exists rec,
       In ([0; 0; 1; 1], rec) svgOutput
       /\ Attributes.class (ElementRecord.attributes rec) = JHost "SVGAnimatedString"
       /\ getPath (withoutUndefined (valueOfRecord rec)) ["attributes"; "class"]
          = Some (JObj []).
Proof.
  split; [reflexivity|].
  eexists. split; [left; reflexivity|]. split; reflexivity.
Qed.

(** C6, amended. On a document in which no element is named like a property
    the script reads, or [name], and every id is plain, serializing the
    records of the output and re-parsing the text gives the records without
    the fields that hold [undefined] and with the empty object for a field
    that holds an object of the host: each of [isDisabled], [isReadOnly],
    [isChecked], [isSelected], [attributes.type] and [attributes.class] is
    in the record read back exactly when its value in memory is not
    [undefined], and holds that value, or the empty object in the place of
    an object of the host; [isHiddenByAria] is always there; and a record
    whose host values (class, type and the four state fields) have no part
    that is [undefined] or an object of the host is read back as it is in
    memory. *)
Theorem reparsed_records_lack_undefined_fields (doc : Document)
    (out : list (ref * ElementRecord.t)) :
  ordinaryDocument doc = true -> formNameUnshadowed doc = true ->
  scan doc = Ok out ->
  JSON.reparse (valueOfOutput out)
  = Some (JArr (map (fun p => withoutUndefined (valueOfRecord (snd p))) out))
  /\ forall r rec,
       In (r, rec) out ->
       getPath (withoutUndefined (valueOfRecord rec)) ["state"; "isDisabled"]
       = present (State.isDisabled (ElementRecord.state rec))
       /\ getPath (withoutUndefined (valueOfRecord rec)) ["state"; "isReadOnly"]
          = present (State.isReadOnly (ElementRecord.state rec))
       /\ getPath (withoutUndefined (valueOfRecord rec)) ["state"; "isChecked"]
          = present (State.isChecked (ElementRecord.state rec))
       /\ getPath (withoutUndefined (valueOfRecord rec)) ["state"; "isSelected"]
          = present (State.isSelected (ElementRecord.state rec))
       /\ getPath (withoutUndefined (valueOfRecord rec)) ["state"; "isHiddenByAria"]
          = Some (JBool (State.isHiddenByAria (ElementRecord.state rec)))
       /\ getPath (withoutUndefined (valueOfRecord rec)) ["attributes"; "type"]
          = present (Attributes.type (ElementRecord.attributes rec))
       /\ getPath (withoutUndefined (valueOfRecord rec)) ["attributes"; "class"]
          = present (Attributes.class (ElementRecord.attributes rec))
       /\ (definedRecord rec = true ->
           withoutUndefined (valueOfRecord rec) = valueOfRecord rec).
Proof.
  intros _ _ _. split; [apply reparse_output|]. intros r rec _.
  destruct (reparsed_state (State.isDisabled (ElementRecord.state rec))
              (State.isReadOnly (ElementRecord.state rec))
              (State.isChecked (ElementRecord.state rec))
              (State.isSelected (ElementRecord.state rec))
              (State.isHiddenByAria (ElementRecord.state rec)))
    as (H1 & H2 & H3 & H4 & H5).
  rewrite !getPath_state, getPath_type, getPath_class.
  repeat split; try assumption.
  intros H. apply withoutUndefined_defined. now rewrite defined_valueOfRecord.
Qed.

Lemma reparsed_records_lack_undefined_fields_witness :
  JSON.reparse (valueOfOutput svgOutput)
  = Some (JArr (map (fun p => withoutUndefined (valueOfRecord (snd p))) svgOutput))
  /\ forall r rec,
       In (r, rec) svgOutput ->
       getPath (withoutUndefined (valueOfRecord rec)) ["state"; "isDisabled"]
       = present (State.isDisabled (ElementRecord.state rec))
       /\ getPath (withoutUndefined (valueOfRecord rec)) ["state"; "isReadOnly"]
          = present (State.isReadOnly (ElementRecord.state rec))
       /\ getPath (withoutUndefined (valueOfRecord rec)) ["state"; "isChecked"]
          = present (State.isChecked (ElementRecord.state rec))
       /\ getPath (withoutUndefined (valueOfRecord rec)) ["state"; "isSelected"]
          = present (State.isSelected (ElementRecord.state rec))
       /\ getPath (withoutUndefined (valueOfRecord rec)) ["state"; "isHiddenByAria"]
          = Some (JBool (State.isHiddenByAria (ElementRecord.state rec)))
       /\ getPath (withoutUndefined (valueOfRecord rec)) ["attributes"; "type"]
          = present (Attributes.type (ElementRecord.attributes rec))
       /\ getPath (withoutUndefined (valueOfRecord rec)) ["attributes"; "class"]
          = present (Attributes.class (ElementRecord.attributes rec))
       /\ (definedRecord rec = true ->
           withoutUndefined (valueOfRecord rec) = valueOfRecord rec).
Proof.
  apply (reparsed_records_lack_undefined_fields svgPage svgOutput).
  - reflexivity.
  - reflexivity.
  - reflexivity.
Defined.

(** ** The text of a path, read back *)

Lemma forallChars_app (p : ascii -> bool) (a b : string) :
  Str.forallChars p (a +:+ b) = Str.forallChars p a && Str.forallChars p b.
Proof.
  induction a as [|c a IH]; simpl; [reflexivity|].
  now rewrite IH, andb_assoc.
Qed.

Lemma splitAt_whole (sep : ascii) (s : string) :
  Str.forallChars (isNot sep) s = true -> splitAt sep s = [s].
Proof.
  induction s as [|c s IH]; simpl; [reflexivity|].
  intros H. apply andb_true_iff in H as [Hc Hs].
  unfold isNot in Hc. apply negb_true_iff in Hc. rewrite Hc.
  now rewrite (IH Hs).
Qed.

Lemma splitAt_app (sep : ascii) (a b : string) :
  Str.forallChars (isNot sep) a = true ->
  splitAt sep (a +:+ String sep b) = a :: splitAt sep b.
Proof.
  induction a as [|c a IH]; simpl.
  - intros _. now rewrite Ascii.eqb_refl.
  - intros H. apply andb_true_iff in H as [Hc Ha].
    unfold isNot in Hc. apply negb_true_iff in Hc. rewrite Hc.
    now rewrite (IH Ha).
Qed.

Lemma splitAt_join (sep : ascii) (parts : list string) :
  parts <> [] ->
  Forall (fun part => Str.forallChars (isNot sep) part = true) parts ->
  splitAt sep (Str.join (String sep EmptyString) parts) = parts.
Proof.
  unfold Str.join. intros Hne H. induction H as [|x l Hx Hl IH]; [congruence|].
  destruct l as [|y l].
  - simpl. now apply splitAt_whole.
  - change (String.concat (String sep EmptyString) (x :: y :: l))
      with (x +:+ String sep (String.concat (String sep EmptyString) (y :: l))).
    rewrite (splitAt_app sep x _ Hx). f_equal. apply IH. discriminate.
Qed.

Lemma forallChars_digits (p : ascii -> bool) (d : Decimal.uint) :
  Str.forallChars p "0123456789" = true ->
  Str.forallChars p (NilEmpty.string_of_uint d) = true.
Proof.
  simpl. rewrite !andb_true_iff.
  intros (H0 & H1 & H2 & H3 & H4 & H5 & H6 & H7 & H8 & H9 & _).
  induction d; simpl; rewrite ?IHd, ?andb_true_r; auto.
Qed.

Lemma ofNat_not_empty (k : nat) : Str.ofNat k <> "".
Proof.
  unfold Str.ofNat. intros H.
  assert (Hu : NilEmpty.uint_of_string (NilEmpty.string_of_uint (Nat.to_uint k))
               = Some Decimal.Nil) by now rewrite H.
  rewrite NilEmpty.usu in Hu. injection Hu as Hu.
  pose proof (Unsigned.of_to k) as Hk. rewrite Hu in Hk. simpl in Hk. subst k.
  discriminate.
Qed.

Lemma parseStep_renderStep (s : Step) :
  readable s -> parseStep (renderStep s) = Some s.
Proof.
  intros (Hne & _ & Hname & Htest). apply String.eqb_neq in Hne.
  destruct s as [name [k|]]; unfold renderStep, parseStep;
    cbn [stepName stepPosition] in *.
  - change (name +:+ "[" +:+ Str.ofNat k +:+ "]")
      with (name +:+ String "[" (Str.ofNat k +:+ "]")).
    rewrite (splitAt_app "[" name _ Hname).
    rewrite splitAt_whole.
    2:{ rewrite forallChars_app. unfold Str.ofNat.
        now rewrite forallChars_digits. }
    change (Str.ofNat k +:+ "]") with (Str.ofNat k +:+ String "]" EmptyString).
    rewrite splitAt_app by (unfold Str.ofNat; now rewrite forallChars_digits).
    cbn [splitAt]. rewrite Htest. cbn [negb orb].
    pose proof (ofNat_not_empty k) as Hk. apply String.eqb_neq in Hk. rewrite Hk.
    unfold Str.ofNat. rewrite NilEmpty.usu. now rewrite Unsigned.of_to.
  - rewrite (splitAt_whole "[" name Hname). now rewrite Htest.
Qed.

Lemma renderStep_one_segment (s : Step) :
  readable s -> Str.forallChars (isNot "/") (renderStep s) = true.
Proof.
  intros (_ & Hname & _). destruct s as [name [k|]]; unfold renderStep; simpl in *;
    [|exact Hname].
  rewrite !forallChars_app, Hname. unfold Str.ofNat.
  now rewrite forallChars_digits.
Qed.

Lemma parseSteps_render (steps : list Step) :
  Forall readable steps -> parseSteps (map renderStep steps) = Some steps.
Proof.
  induction 1 as [|s steps Hs _ IH]; simpl; [reflexivity|].
  now rewrite (parseStep_renderStep s Hs), IH.
Qed.

Lemma parsePath_renderPath (steps : list Step) :
  steps <> [] -> Forall readable steps -> parsePath (renderPath steps) = Some steps.
Proof.
  intros Hne H. unfold renderPath.
  change ("/" +:+ Str.join "/" (map renderStep steps))
    with (String "/" (Str.join "/" (map renderStep steps))).
  unfold parsePath. cbv beta iota.
  rewrite (splitAt_join "/").
  - now apply parseSteps_render.
  - now destruct steps.
  - clear Hne. induction H as [|s steps' Hs _ IH]; simpl; constructor;
      [now apply renderStep_one_segment | exact IH].
Qed.

Lemma lowerChar_path_safe (c : ascii) :
  Str.isUpperNameChar c = true ->
  isNot "/" (Str.lowerChar c) = true /\ isNot "[" (Str.lowerChar c) = true.
Proof.
  intros H. apply isUpperNameChar_spec in H as (L & N & N47 & N91).
  pose proof (nat_of_lowerChar c L) as Hn.
  unfold isNot. rewrite !negb_true_iff.
  split; apply Ascii.eqb_neq; intros E; rewrite E in Hn;
    [change (nat_of_ascii "/") with 47 in Hn | change (nat_of_ascii "[") with 91 in Hn];
    destruct (Nat.leb 65 (nat_of_ascii c) && Nat.leb (nat_of_ascii c) 90) eqn:U;
    try (apply andb_true_iff in U as [U1 U2]; apply Nat.leb_le in U1, U2); lia.
Qed.

Lemma lowerChar_isNameChar (c : ascii) :
  Str.isUpperNameChar c = true -> Str.isNameChar (Str.lowerChar c) = true.
Proof.
  destruct c as [[|] [|] [|] [|] [|] [|] [|] [|]]; vm_compute; intros H;
    first [reflexivity | discriminate H].
Qed.

Lemma lowerChar_isNameStartChar (c : ascii) :
  Str.isCapital c = true -> Str.isNameStartChar (Str.lowerChar c) = true.
Proof.
  destruct c as [[|] [|] [|] [|] [|] [|] [|] [|]]; vm_compute; intros H;
    first [reflexivity | discriminate H].
Qed.

Lemma toLowerCase_isNameChars (name : string) :
  Str.forallChars Str.isUpperNameChar name = true ->
  Str.forallChars (isNot "/") (Str.toLowerCase name) = true
  /\ Str.forallChars (isNot "[") (Str.toLowerCase name) = true
  /\ Str.forallChars Str.isNameChar (Str.toLowerCase name) = true.
Proof.
  induction name as [|c name IH]; simpl; [now repeat split|].
  intros H. apply andb_true_iff in H as [Hc H].
  destruct (lowerChar_path_safe c Hc) as [-> ->].
  rewrite (lowerChar_isNameChar c Hc).
  destruct (IH H) as (-> & -> & ->). now repeat split.
Qed.

Lemma toLowerCase_readable (name : string) :
  isUpperName name = true ->
  Str.toLowerCase name <> ""
  /\ Str.forallChars (isNot "/") (Str.toLowerCase name) = true
  /\ Str.forallChars (isNot "[") (Str.toLowerCase name) = true
  /\ isNameTest (Str.toLowerCase name) = true.
Proof.
  unfold isUpperName. intros H. apply andb_true_iff in H as [Hstart H].
  destruct (toLowerCase_isNameChars name H) as (H1 & H2 & H3).
  split; [destruct name; [discriminate | simpl; discriminate]|].
  split; [exact H1|]. split; [exact H2|].
  destruct name as [|c name]; [discriminate|].
  unfold isNameTest. cbn [Str.toLowerCase]. cbn [startsWithCapital] in Hstart.
  rewrite (lowerChar_isNameStartChar c Hstart). exact H3.
Qed.

Lemma stepsOf_readable (doc : Document) (r : ref) :
  parsedNames doc = true -> htmlChain doc r = true -> Forall readable (stepsOf doc r).
Proof.
  intros H. induction r as [|i p IH]; intros Hr; [constructor|].
  destruct (htmlChain_cons _ _ _ Hr) as (Hp & e & He & _).
  cbn [stepsOf]. rewrite He.
  apply Forall_app. split; [exact (IH Hp)|]. constructor; [|constructor].
  unfold readable, stepOf. cbn [stepName].
  apply toLowerCase_readable. now apply (parsedNames_elementAt doc (i :: p)).
Qed.

Lemma stepsOf_levels (doc : Document) (r : ref) :
  (r = [] \/ exists e, elementAt doc r = Some e) ->
  Forall2 (fun level s => exists el, elementAt doc level = Some el /\ s = stepOf doc level el)
    (levelsOf r) (stepsOf doc r).
Proof.
  induction r as [|i p IH]; intros Hr; [constructor|].
  destruct Hr as [Hr|[e He]]; [discriminate|].
  cbn [stepsOf levelsOf]. rewrite He.
  destruct (elementAt_lookup _ _ _ _ He) as [cs Hi].
  apply Forall2_app; [apply IH; eapply parent_of_child; exact Hi|].
  constructor; [|constructor]. now exists e.
Qed.

(** The second loop asks no node type: a following node of the same name
    that is no element gives the segment its index, a preceding one does
    not. Either path selects the element. *)
Lemma following_node_of_same_name_gives_index :
  getXPathForElement instructionAfter (Some [0; 1; 1]) = Some "/html/body/div[1]"
  /\ evaluate instructionAfter "/html/body/div[1]" = Some [[0; 1; 1]]
  /\ getXPathForElement instructionBefore (Some [1; 1; 1]) = Some "/html/body/div"
  /\ evaluate instructionBefore "/html/body/div" = Some [[1; 1; 1]].
Proof. repeat split; reflexivity. Qed.

(** A page with an inline SVG image is a parsed document; the path of the
    HTML link beside the image selects the link. *)
Lemma html_link_beside_svg_resolves :
  parsedNames svgPage = true
  /\ htmlChain svgPage [1; 1; 1] = true
  /\ htmlChain svgPage [0; 0; 1; 1] = false
  /\ elementAt svgPage [1; 1; 1] = Some helpLink
  /\ getXPathForElement svgPage (Some [1; 1; 1]) = Some "/html/body/a"
  /\ evaluate svgPage "/html/body/a" = Some [[1; 1; 1]].
Proof. repeat split; reflexivity. Qed.

(** C2, as the specification has it, fails on an element that is no HTML
    element. The first link of [svgPage] is a candidate (the selector [a]
    takes it), it is rendered and has a text, so it has a record; it has no
    id, and its path is [/html/body/svg/a]. The host finds nothing for that
    path: a name test without a prefix does not select the elements of the
    SVG namespace. *)
Lemma svg_link_path_selects_nothing :
  scan svgPage = Ok svgOutput
  /\ elementAt svgPage [0; 0; 1; 1] = Some svgLink
  /\ elementId svgLink = ""
  /\ (exists rec, In ([0; 0; 1; 1], rec) svgOutput
                  /\ ElementRecord.xpath rec = Some "/html/body/svg/a")
  /\ getXPathForElement svgPage (Some [0; 0; 1; 1]) = Some "/html/body/svg/a"
  /\ evaluate svgPage "/html/body/svg/a" = Some [].
Proof.
  split; [reflexivity|]. split; [reflexivity|]. split; [reflexivity|].
  split; [|split; reflexivity].
  eexists. split; [left; reflexivity | reflexivity].
Qed.

(** C2, amended. In a document in which no element is named like a
    property the script reads, whose HTML elements have names of ASCII
    letters, digits, hyphens, low lines and full stops after a first letter
    (reported in upper case) and whose other elements have a namespace and a
    name that is no such name in upper case, for an HTML element without an
    id whose ancestors are HTML elements, the function returns the segments
    of the element and its ancestors, the root first, joined by "/" after a
    leading "/". The segment of a level is the name in lower
    case, with the index [[k]] exactly when a preceding element sibling or a
    following sibling has the same name, [k] being 1 plus the number of
    preceding element siblings of that name. The text, read back and
    evaluated on the same document, selects the element and nothing else. *)
Theorem positional_xpath_resolves (doc : Document) (r : ref) (e : Element) :
  unshadowed doc = true ->
  parsedNames doc = true -> htmlChain doc r = true ->
  elementAt doc r = Some e -> elementId e = "" ->
  exists steps,
    getXPathForElement doc (Some r)
    = Some ("/" +:+ Str.join "/" (map renderStep steps))
    /\ Forall2 (fun level s =>
                  exists el, elementAt doc level = Some el /\ s = stepOf doc level el)
         (levelsOf r) steps
    /\ evaluate doc ("/" +:+ Str.join "/" (map renderStep steps)) = Some [r].
Proof.
  intros _ H Hr He Hid. exists (stepsOf doc r).
  assert (Hne : stepsOf doc r <> []).
  { destruct r as [|i p]; [discriminate|]. cbn [stepsOf]. rewrite He.
    intros C. apply app_eq_nil in C as [_ C]. discriminate. }
  split; [|split].
  - unfold getXPathForElement. rewrite He, Hid. simpl.
    rewrite xpathParts_stepsOf, app_nil_r.
    destruct (map renderStep (stepsOf doc r)) eqn:E; [|reflexivity].
    apply map_eq_nil in E. contradiction.
  - apply stepsOf_levels. right. now exists e.
  - unfold evaluate.
    change ("/" +:+ Str.join "/" (map renderStep (stepsOf doc r)))
      with (renderPath (stepsOf doc r)).
    rewrite (parsePath_renderPath _ Hne (stepsOf_readable doc r H Hr)).
    now rewrite evalPath_stepsOf.
Qed.

Lemma positional_xpath_resolves_witness :
  exists steps,
    getXPathForElement samplePage (Some [3; 1; 1; 1])
    = Some ("/" +:+ Str.join "/" (map renderStep steps))
    /\ Forall2 (fun level s =>
                  exists el, elementAt samplePage level = Some el
                             /\ s = stepOf samplePage level el)
         (levelsOf [3; 1; 1; 1]) steps
    /\ evaluate samplePage ("/" +:+ Str.join "/" (map renderStep steps))
       = Some [[3; 1; 1; 1]].
Proof.
  apply (positional_xpath_resolves samplePage [3; 1; 1; 1] (sampleElement [3; 1; 1; 1])).
  - reflexivity.
  - reflexivity.
  - reflexivity.
  - reflexivity.
  - reflexivity.
Defined.

(** * Further properties *)

(** ** Document order *)

Lemma Node_induction (P : Node -> Prop) :
  (forall e cs, Forall P cs -> P (ElementNode e cs)) ->
  (forall data, P (TextNode data)) ->
  (forall target data, P (ProcessingInstruction target data)) ->
  (forall data, P (CommentNode data)) ->
  (forall name, P (DocumentTypeNode name)) ->
  forall n, P n.
Proof.
  intros He Ht Hp Hc Hd. fix IH 1. intros [e cs|data|target data|data|name].
  - apply He. induction cs as [|c cs IHcs]; constructor; [apply IH | exact IHcs].
  - apply Ht.
  - apply Hp.
  - apply Hc.
  - apply Hd.
Qed.

Lemma pathBefore_app (p a b : list nat) : pathBefore (p ++ a) (p ++ b) = pathBefore a b.
Proof.
  induction p as [|i p IH]; [reflexivity|]. simpl.
  now rewrite Nat.ltb_irrefl, Nat.eqb_refl, IH.
Qed.

Lemma pathBefore_irrefl (a : list nat) : pathBefore a a = false.
Proof.
  induction a as [|i a IH]; [reflexivity|]. simpl.
  now rewrite Nat.ltb_irrefl, Nat.eqb_refl, IH.
Qed.

Lemma precedes_descendant (r d : ref) : d <> [] -> precedes r (d ++ r) = true.
Proof.
  intros Hd. unfold precedes. rewrite rev_app_distr.
  rewrite <- (app_nil_r (rev r)) at 1. rewrite pathBefore_app.
  destruct (rev d) as [|j t] eqn:E; [|reflexivity].
  apply (f_equal (@rev nat)) in E. rewrite rev_involutive in E. contradiction.
Qed.

Lemma precedes_later_sibling (p d d' : ref) (i j : nat) :
  i < j -> precedes (d ++ i :: p) (d' ++ j :: p) = true.
Proof.
  intros Hij. unfold precedes. rewrite !rev_app_distr. simpl.
  rewrite <- !app_assoc, pathBefore_app. simpl.
  apply Nat.ltb_lt in Hij. now rewrite Hij.
Qed.

(** The enumeration of the elements is in document order; every element
    below a node is enumerated under the reference of the node. *)
Lemma elementsAmong_sorted (cs : list Node) :
  Forall (fun n => forall r,
            StronglySorted (fun a b => precedes a b = true) (elementsUnder n r)
            /\ Forall (fun x => exists d, x = d ++ r) (elementsUnder n r)) cs ->
  forall parent i,
    StronglySorted (fun a b => precedes a b = true) (elementsAmong cs parent i)
    /\ Forall (fun x => exists d j, x = d ++ j :: parent /\ i <= j)
         (elementsAmong cs parent i).
Proof.
  induction 1 as [|c cs Hc _ IH]; intros parent i; simpl; [split; constructor|].
  destruct (Hc (i :: parent)) as [Hs Hu]. destruct (IH parent (S i)) as [Hs' Hu'].
  split.
  - apply StronglySorted_app_2; [|exact Hs|exact Hs'].
    intros a b Ha Hb.
    apply (proj1 (Forall_forall _ _) Hu) in Ha as [d ->].
    apply (proj1 (Forall_forall _ _) Hu') in Hb as (d' & j & -> & Hj).
    apply precedes_later_sibling. lia.
  - apply Forall_app. split.
    + eapply Forall_impl; [exact Hu|]. intros x [d ->]. now exists d, i.
    + eapply Forall_impl; [exact Hu'|]. intros x (d & j & -> & Hj). exists d, j.
      split; [reflexivity | lia].
Qed.

Lemma elementsUnder_sorted (n : Node) (r : ref) :
  StronglySorted (fun a b => precedes a b = true) (elementsUnder n r)
  /\ Forall (fun x => exists d, x = d ++ r) (elementsUnder n r).
Proof.
  revert r. induction n as [e cs IH| | | |] using Node_induction; intros r;
    [|split; constructor..].
  rewrite elementsUnder_element.
  destruct (elementsAmong_sorted cs IH r 0) as [Hs Hu]. split.
  - constructor; [exact Hs|].
    eapply Forall_impl; [exact Hu|]. intros x (d & j & -> & _).
    change (d ++ j :: r) with (d ++ [j] ++ r). rewrite app_assoc.
    apply precedes_descendant. now destruct d.
  - constructor; [now exists []|].
    eapply Forall_impl; [exact Hu|]. intros x (d & j & -> & _).
    exists (d ++ [j]). now rewrite <- app_assoc.
Qed.

Lemma allElements_sorted (doc : Document) :
  StronglySorted (fun a b => precedes a b = true) (allElements doc).
Proof.
  refine (proj1 (elementsAmong_sorted doc _ [] 0)).
  apply Forall_forall. intros n _ r. apply elementsUnder_sorted.
Qed.

Lemma filter_sublist {A : Type} (f : A -> bool) (l : list A) :
  List.filter f l `sublist_of` l.
Proof.
  induction l as [|a l IH]; simpl; [constructor|].
  destruct (f a); now constructor.
Qed.

Lemma StronglySorted_sublist {A : Type} (R : A -> A -> Prop) (l1 l2 : list A) :
  l1 `sublist_of` l2 -> StronglySorted R l2 -> StronglySorted R l1.
Proof.
  induction 1 as [|x l1 l2 Hsub IH|x l1 l2 Hsub IH]; intros Hs.
  - constructor.
  - apply StronglySorted_cons in Hs as [Hx Hs]. constructor; [now apply IH|].
    apply Forall_forall. intros y Hy.
    apply (proj1 (Forall_forall _ _) Hx). now apply (elem_of_sublist l1 l2).
  - apply StronglySorted_cons in Hs as [_ Hs]. now apply IH.
Qed.

Lemma sorted_NoDup (l : list ref) :
  StronglySorted (fun a b => precedes a b = true) l -> NoDup l.
Proof.
  induction 1 as [|a l _ IH Ha]; constructor; [|exact IH].
  intros Hin. apply (proj1 (Forall_forall _ _) Ha) in Hin.
  unfold precedes in Hin. now rewrite pathBefore_irrefl in Hin.
Qed.

Lemma querySelectorAll_sorted (doc : Document) (selector : Element -> bool) :
  StronglySorted (fun a b => precedes a b = true) (querySelectorAll doc selector).
Proof.
  apply (StronglySorted_sublist _ _ (allElements doc)).
  - apply filter_sublist.
  - apply allElements_sorted.
Qed.

(** ** The records the pass adds *)

Lemma forEach_sublist (doc : Document) (l : list ref) (st st' : ScanState) :
  forEach (visit doc) l st = Ok st' ->
  exists added,
    elementDetails st' = elementDetails st ++ added
    /\ map fst added `sublist_of` l.
Proof.
  revert st. induction l as [|r l IH]; intros st; simpl.
  - intros [= <-]. exists []. split; [now rewrite app_nil_r | constructor].
  - rewrite visit_describe.
    destruct (decide (r ∈ processedElements st)); simpl.
    + intros H. destruct (IH _ H) as (added & -> & Hsub).
      exists added. split; [reflexivity | now constructor].
    + destruct (describe doc r) as [[rec|]|]; simpl; [| |discriminate].
      * intros H. destruct (IH _ H) as (added & -> & Hsub). simpl.
        exists ((r, rec) :: added). split; [now rewrite <- app_assoc | now constructor].
      * intros H. destruct (IH _ H) as (added & -> & Hsub).
        exists added. split; [reflexivity | now constructor].
Qed.

Lemma scanCandidates_sublist (doc : Document) (candidates : list ref)
    (out : list (ref * ElementRecord.t)) :
  scanCandidates doc candidates = Ok out -> map fst out `sublist_of` candidates.
Proof.
  unfold scanCandidates.
  destruct (forEach (visit doc) candidates initialState) as [st|] eqn:E; [|discriminate].
  simpl. intros [= <-].
  destruct (forEach_sublist _ _ _ _ E) as (added & -> & Hsub). exact Hsub.
Qed.

(** X1. The candidates of the script come in document order, each once, and
    the records of the output follow them: the nodes of the records are a
    subsequence of the candidates, in document order, and there are no more
    records than candidates. *)
Theorem records_in_document_order (doc : Document) (out : list (ref * ElementRecord.t)) :
  scan doc = Ok out ->
  StronglySorted (fun a b => precedes a b = true) (querySelectorAll doc interactiveSelector)
  /\ map fst out `sublist_of` querySelectorAll doc interactiveSelector
  /\ StronglySorted (fun a b => precedes a b = true) (map fst out)
  /\ length out <= length (querySelectorAll doc interactiveSelector).
Proof.
  intros Hscan. pose proof (querySelectorAll_sorted doc interactiveSelector) as Hs.
  pose proof (scanCandidates_sublist _ _ _ Hscan) as Hsub.
  split; [exact Hs|]. split; [exact Hsub|].
  split; [now apply (StronglySorted_sublist _ _ _ Hsub)|].
  apply sublist_length in Hsub. now rewrite length_map in Hsub.
Qed.

Lemma records_in_document_order_witness :
  StronglySorted (fun a b => precedes a b = true)
    (querySelectorAll samplePage interactiveSelector)
  /\ map fst sampleOutput `sublist_of` querySelectorAll samplePage interactiveSelector
  /\ StronglySorted (fun a b => precedes a b = true) (map fst sampleOutput)
  /\ length sampleOutput <= length (querySelectorAll samplePage interactiveSelector).
Proof.
  apply (records_in_document_order samplePage sampleOutput). reflexivity.
Defined.

(** ** The pass without the set *)

Lemma forEach_collect (doc : Document) (l : list ref) (st : ScanState) :
  NoDup l -> (forall r, r ∈ processedElements st -> ~ In r l) ->
  match forEach (visit doc) l st, collect doc l with
  | Ok st', Ok out =>
      elementDetails st' = elementDetails st ++ out
  | Throw err, Throw err' => err = err'
  | _, _ => False
  end.
Proof.
  revert st. induction l as [|r l IH]; intros st Hnd Hfresh; simpl.
  - now rewrite app_nil_r.
  - apply NoDup_cons in Hnd as [Hr Hnd]. rewrite visit_describe.
    destruct (decide (r ∈ processedElements st)) as [Hin|_].
    { exfalso. apply (Hfresh r Hin). now left. }
    destruct (describe doc r) as [[rec|]|err]; simpl; [| |reflexivity].
    + set (st1 := {| processedElements := {[r]} ∪ processedElements st;
                     elementDetails := elementDetails st ++ [(r, rec)] |}).
      assert (Hfresh1 : forall x, x ∈ processedElements st1 -> ~ In x l).
      { intros x Hx Hxl. simpl in Hx. apply elem_of_union in Hx as [Hx|Hx].
        - apply elem_of_singleton in Hx as ->. apply Hr. now apply list_elem_of_In.
        - apply (Hfresh x Hx). now right. }
      specialize (IH st1 Hnd Hfresh1).
      destruct (forEach (visit doc) l st1) as [st'|e1], (collect doc l) as [out|e2];
        simpl; try exact IH.
      rewrite IH. simpl. now rewrite <- app_assoc.
    + assert (Hfresh1 : forall x, x ∈ processedElements st -> ~ In x l).
      { intros x Hx Hxl. apply (Hfresh x Hx). now right. }
      specialize (IH st Hnd Hfresh1).
      destruct (forEach (visit doc) l st) as [st'|e1], (collect doc l) as [out|e2];
        simpl; exact IH.
Qed.

Lemma scanCandidates_collect (doc : Document) (candidates : list ref) :
  NoDup candidates -> scanCandidates doc candidates = collect doc candidates.
Proof.
  intros Hnd. unfold scanCandidates.
  pose proof (forEach_collect doc candidates initialState Hnd) as H.
  destruct (forEach (visit doc) candidates initialState) as [st|e1],
           (collect doc candidates) as [out|e2]; simpl.
  - f_equal. apply H. intros r Hr. now apply not_elem_of_empty in Hr.
  - exfalso. apply H. intros r Hr. now apply not_elem_of_empty in Hr.
  - exfalso. apply H. intros r Hr. now apply not_elem_of_empty in Hr.
  - f_equal. apply H. intros r Hr. now apply not_elem_of_empty in Hr.
Qed.

(** X2. No candidate of the script comes twice, so the set of processed
    elements never decides anything there: the script gives what the
    callback gives on each candidate in turn, a record for each candidate it
    accepts, or the exception of the first candidate on which it throws. *)
Theorem scan_is_collect (doc : Document) :
  NoDup (querySelectorAll doc interactiveSelector)
  /\ scan doc = collect doc (querySelectorAll doc interactiveSelector).
Proof.
  assert (Hnd : NoDup (querySelectorAll doc interactiveSelector)).
  { apply sorted_NoDup, querySelectorAll_sorted. }
  split; [exact Hnd|]. unfold scan. now apply scanCandidates_collect.
Qed.

(** ** What has a record *)

(** X3. A record of the output belongs to an element that matches the
    selector and passes the filter; its location is the bounding box of that
    element, and neither the width nor the height of it is zero. *)
Theorem record_of_visible_candidate (doc : Document) (out : list (ref * ElementRecord.t))
    (r : ref) (rec : ElementRecord.t) :
  scan doc = Ok out -> In (r, rec) out ->
  exists e,
    elementAt doc r = Some e
    /\ interactiveSelector e = true
    /\ passesVisibilityFilter e
    /\ ElementRecord.location rec = boundingClientRect e
    /\ width (ElementRecord.location rec) <> 0%Z
    /\ height (ElementRecord.location rec) <> 0%Z.
Proof.
  intros Hscan Hin.
  assert (Hcand : In r (querySelectorAll doc interactiveSelector)).
  { apply list_elem_of_In.
    apply (elem_of_sublist (map fst out)); [|exact (scanCandidates_sublist _ _ _ Hscan)].
    apply list_elem_of_In. apply in_map_iff. now exists (r, rec). }
  apply querySelectorAll_spec in Hcand as (e & He & Hsel).
  destruct (output_record _ _ _ _ _ Hscan Hin)
    as (e' & vt & lt & He' & Hvis & _ & _ & _ & ->).
  rewrite He in He'. injection He' as <-.
  exists e. split; [exact He|]. split; [exact Hsel|]. split; [exact Hvis|].
  cbn [assemble ElementRecord.location width height].
  split; [now destruct (boundingClientRect e)|].
  split; apply Hvis.
Qed.

Lemma record_of_visible_candidate_witness :
  exists e,
    elementAt samplePage [2; 1; 1] = Some e
    /\ interactiveSelector e = true
    /\ passesVisibilityFilter e
    /\ ElementRecord.location goRecord = boundingClientRect e
    /\ width (ElementRecord.location goRecord) <> 0%Z
    /\ height (ElementRecord.location goRecord) <> 0%Z.
Proof.
  apply (record_of_visible_candidate samplePage sampleOutput [2; 1; 1] goRecord).
  - reflexivity.
  - vm_compute. tauto.
Defined.

(** ** getAncestorContext *)

(** X4. On a document in which no element is named like a property the
    script reads, [getAncestorContext] returns null exactly for an element
    whose parent is the document, the root element; for any other element it
    gives the tag of the parent in lower case and the id, role and aria-label
    of the parent, null for one that is empty or absent. *)
Theorem context_null_only_for_root (doc : Document) (r : ref) (e : Element) :
  unshadowed doc = true ->
  elementAt doc r = Some e ->
  (getAncestorContext doc r = None <-> exists i, r = [i])
  /\ forall i p parent,
       r = i :: p -> elementAt doc p = Some parent ->
       exists c,
         getAncestorContext doc r = Some c
         /\ Context.tagName c = Str.toLowerCase (tagName parent)
         /\ Context.id c = orNull (elementId parent)
         /\ Context.role c = attrOrNull (getAttribute parent "role")
         /\ Context.ariaLabel c = attrOrNull (getAttribute parent "aria-label").
Proof.
  intros _ He. destruct r as [|i p]; [discriminate|].
  destruct (elementAt_lookup _ _ _ _ He) as [cs Hi].
  split.
  - unfold getAncestorContext, parentElement.
    destruct (parent_of_child _ _ _ _ Hi) as [->|[parent Hp]].
    + split; [intros _; now exists i | reflexivity].
    + rewrite Hp. cbv beta iota. rewrite Hp.
      split; [discriminate|]. intros [j [= _ ->]]. discriminate.
  - intros i' p' parent [= <- <-] Hp.
    unfold getAncestorContext, parentElement. rewrite Hp. cbv beta iota. rewrite Hp.
    eexists. split; [reflexivity|]. repeat split.
Qed.

Lemma context_null_only_for_root_witness :
  (getAncestorContext samplePage [2; 0; 1; 1] = None <-> exists i, [2; 0; 1; 1] = [i])
  /\ forall i p parent,
       [2; 0; 1; 1] = i :: p -> elementAt samplePage p = Some parent ->
       exists c,
         getAncestorContext samplePage [2; 0; 1; 1] = Some c
         /\ Context.tagName c = Str.toLowerCase (tagName parent)
         /\ Context.id c = orNull (elementId parent)
         /\ Context.role c = attrOrNull (getAttribute parent "role")
         /\ Context.ariaLabel c = attrOrNull (getAttribute parent "aria-label").
Proof.
  apply (context_null_only_for_root samplePage [2; 0; 1; 1] (sampleElement [2; 0; 1; 1])).
  - reflexivity.
  - reflexivity.
Defined.

Lemma closest_find (doc : Document) (selector : Element -> bool) (r : ref) (e : Element) :
  elementAt doc r = Some e ->
  closest doc selector r = List.find (matchesAt doc selector) (inclusiveAncestors r).
Proof.
  revert e. induction r as [|i p IH]; intros e He; [discriminate|].
  cbn [closest inclusiveAncestors List.find]. unfold matchesAt at 1. rewrite He.
  destruct (selector e); [reflexivity|].
  destruct (elementAt_lookup _ _ _ _ He) as [cs Hi].
  destruct (parent_of_child _ _ _ _ Hi) as [->|[parent Hp]]; [reflexivity|].
  exact (IH parent Hp).
Qed.

Lemma find_first {A : Type} (f : A -> bool) (l : list A) (a : A) :
  List.find f l = Some a ->
  exists l1 l2, l = l1 ++ a :: l2 /\ Forall (fun x => f x = false) l1 /\ f a = true.
Proof.
  induction l as [|x l IH]; [discriminate|]. simpl.
  destruct (f x) eqn:E.
  - intros [= <-]. exists [], l. now repeat split.
  - intros H. destruct (IH H) as (l1 & l2 & -> & Hl1 & Ha).
    exists (x :: l1), l2. repeat split; [now constructor | exact Ha].
Qed.

Lemma find_nothing {A : Type} (f : A -> bool) (l : list A) :
  List.find f l = None <-> Forall (fun x => f x = false) l.
Proof.
  induction l as [|x l IH]; simpl; [now split|].
  destruct (f x) eqn:E.
  - split; [discriminate|]. intros H. apply Forall_cons in H as [H _]. congruence.
  - rewrite IH. split; [now constructor|]. intros H. now apply Forall_cons in H as [_ H].
Qed.

(** X5. On a document in which no element is named like a property the
    script reads, or [name], the form of a context is the nearest form among
    the element itself and its ancestors, however far up, with its id and
    name; the context has no form exactly when none of them is a form. *)
Theorem form_of_context_is_nearest (doc : Document) (r : ref) (e : Element) (c : Context.t) :
  unshadowed doc = true -> formNameUnshadowed doc = true ->
  elementAt doc r = Some e -> getAncestorContext doc r = Some c ->
  (Context.form c = None
   <-> Forall (fun a => matchesAt doc isForm a = false) (inclusiveAncestors r))
  /\ forall f,
       Context.form c = Some f ->
       exists nearer a farther fe,
         inclusiveAncestors r = nearer ++ a :: farther
         /\ Forall (fun x => matchesAt doc isForm x = false) nearer
         /\ elementAt doc a = Some fe /\ isForm fe = true
         /\ f = {| Form.id := orNull (elementId fe); Form.name := orNull (formName fe) |}.
Proof.
  intros _ _ He Hc.
  assert (Hform : Context.form c = formContext doc r).
  { unfold getAncestorContext in Hc.
    destruct (parentElement doc r) as [parentRef|]; [|discriminate].
    destruct (elementAt doc parentRef); [|discriminate]. now injection Hc as <-. }
  rewrite Hform. unfold formContext. rewrite (closest_find doc isForm r e He).
  destruct (List.find (matchesAt doc isForm) (inclusiveAncestors r)) as [a|] eqn:Ef.
  - destruct (find_first _ _ _ Ef) as (nearer & farther & Hsplit & Hnear & Ha).
    unfold matchesAt in Ha.
    destruct (elementAt doc a) as [fe|] eqn:Hfe; [|discriminate].
    split.
    + split; [discriminate|]. intros Hall. apply find_nothing in Hall. congruence.
    + intros f [= <-]. exists nearer, a, farther, fe. now repeat split.
  - split; [|discriminate]. split; [intros _; now apply find_nothing | reflexivity].
Qed.

Lemma form_of_context_is_nearest_witness :
  (Context.form agreeContext = None
   <-> Forall (fun a => matchesAt samplePage isForm a = false)
         (inclusiveAncestors [2; 0; 1; 1]))
  /\ forall f,
       Context.form agreeContext = Some f ->
       exists nearer a farther fe,
         inclusiveAncestors [2; 0; 1; 1] = nearer ++ a :: farther
         /\ Forall (fun x => matchesAt samplePage isForm x = false) nearer
         /\ elementAt samplePage a = Some fe /\ isForm fe = true
         /\ f = {| Form.id := orNull (elementId fe); Form.name := orNull (formName fe) |}.
Proof.
  apply (form_of_context_is_nearest samplePage [2; 0; 1; 1] (sampleElement [2; 0; 1; 1])).
  - reflexivity.
  - reflexivity.
  - reflexivity.
  - reflexivity.
Defined.

(** ** The texts of a record *)

Lemma orString_firstNonEmpty (a b : string) : orString a b = firstNonEmpty [a; b].
Proof.
  unfold orString. cbn [firstNonEmpty]. destruct (String.eqb a ""); [|reflexivity].
  symmetry. apply empty_or_self.
Qed.

Lemma mainTextOf_ownText (doc : Document) (element : ref) (e : Element) :
  mainTextOf doc element e = ownText doc element e.
Proof. unfold mainTextOf, ownText. now rewrite orElse_text. Qed.

(** X6. On a document in which no element is named like a property the
    script reads and every id is plain:
    [text.visibleText] of a record is the text of the element itself or
    else its value, and [text.labelText] the text of the label that names the
    element in its [for] or else of the label around the element; each is
    null when there is none that is not empty. *)
Theorem text_views_of_record (doc : Document) (candidates : list ref)
    (out : list (ref * ElementRecord.t)) (r : ref) (rec : ElementRecord.t) (e : Element) :
  ordinaryDocument doc = true ->
  scanCandidates doc candidates = Ok out -> In (r, rec) out ->
  elementAt doc r = Some e ->
  Text.visibleText (ElementRecord.text rec)
  = orNull (firstNonEmpty [ownText doc r e; ownValue e])
  /\ Text.labelText (ElementRecord.text rec)
     = orNull (firstNonEmpty [associatedLabelText doc e; enclosingLabelText doc r]).
Proof.
  intros _ Hscan Hin He.
  destruct (output_record _ _ _ _ _ Hscan Hin)
    as (e' & vt & lt & He' & _ & Hv & Hl & _ & ->).
  rewrite He in He'. injection He' as <-.
  apply valueTextOf_ok in Hv. apply labelTextOf_ok in Hl. subst vt lt.
  cbn [assemble ElementRecord.text Text.visibleText Text.labelText].
  now rewrite orString_firstNonEmpty, mainTextOf_ownText.
Qed.

Lemma text_views_of_record_witness :
  Text.visibleText (ElementRecord.text goRecord)
  = orNull (firstNonEmpty [ownText samplePage [2; 1; 1] goButton; ownValue goButton])
  /\ Text.labelText (ElementRecord.text goRecord)
     = orNull (firstNonEmpty [associatedLabelText samplePage goButton;
                              enclosingLabelText samplePage [2; 1; 1]]).
Proof.
  apply (text_views_of_record samplePage
           (querySelectorAll samplePage interactiveSelector) sampleOutput).
  - reflexivity.
  - reflexivity.
  - vm_compute. tauto.
  - reflexivity.
Defined.

(** X7. A label is its own closest label: the record of a label without an
    id has the text of the label itself as [labelText], which is then its
    [visibleText] too unless that text is empty. *)
Theorem label_is_its_own_label (doc : Document) (candidates : list ref)
    (out : list (ref * ElementRecord.t)) (r : ref) (rec : ElementRecord.t) (e : Element) :
  scanCandidates doc candidates = Ok out -> In (r, rec) out ->
  elementAt doc r = Some e -> isLabel e = true -> elementId e = "" ->
  closest doc isLabel r = Some r
  /\ Text.labelText (ElementRecord.text rec) = orNull (ownText doc r e)
  /\ (ownText doc r e <> "" ->
      Text.labelText (ElementRecord.text rec) = Text.visibleText (ElementRecord.text rec)).
Proof.
  intros Hscan Hin He Hlabel Hid.
  destruct (output_record _ _ _ _ _ Hscan Hin)
    as (e' & vt & lt & He' & _ & Hv & Hl & _ & ->).
  rewrite He in He'. injection He' as <-.
  apply valueTextOf_ok in Hv. apply labelTextOf_ok in Hl. subst vt lt.
  cbn [assemble ElementRecord.text Text.visibleText Text.labelText].
  rewrite orString_firstNonEmpty, mainTextOf_ownText.
  assert (Hc : closest doc isLabel r = Some r).
  { destruct r as [|i p]; [discriminate|]. cbn [closest]. now rewrite He, Hlabel. }
  assert (Hown : firstNonEmpty [associatedLabelText doc e; enclosingLabelText doc r]
                 = ownText doc r e).
  { unfold associatedLabelText, enclosingLabelText, trimmedLabelText, ownText.
    rewrite Hid, Hc, He. cbn [firstNonEmpty String.eqb]. apply empty_or_self. }
  split; [exact Hc|]. rewrite Hown. split; [reflexivity|].
  intros Hne. cbn [firstNonEmpty].
  apply String.eqb_neq in Hne. now rewrite Hne.
Qed.

Lemma label_is_its_own_label_witness :
  closest samplePage isLabel [0; 0; 1; 1] = Some [0; 0; 1; 1]
  /\ Text.labelText (ElementRecord.text (sampleRecord 0))
     = orNull (ownText samplePage [0; 0; 1; 1] (sampleElement [0; 0; 1; 1]))
  /\ (ownText samplePage [0; 0; 1; 1] (sampleElement [0; 0; 1; 1]) <> "" ->
      Text.labelText (ElementRecord.text (sampleRecord 0))
      = Text.visibleText (ElementRecord.text (sampleRecord 0))).
Proof.
  apply (label_is_its_own_label samplePage
           (querySelectorAll samplePage interactiveSelector) sampleOutput).
  - reflexivity.
  - vm_compute. tauto.
  - reflexivity.
  - reflexivity.
  - reflexivity.
Defined.

(** ** The shape of the computed text *)

Lemma isWord_cons (c : ascii) (w : string) :
  Str.isWhiteSpace c = false -> (w = "" \/ isWord w = true) -> isWord (String c w) = true.
Proof.
  intros Hc Hw. unfold isWord. simpl. rewrite Hc. simpl.
  destruct Hw as [->|Hw]; [reflexivity|].
  unfold isWord in Hw. now apply andb_true_iff in Hw as [_ Hw].
Qed.

Lemma words_are_words (s : string) : Forall (fun w => isWord w = true) (Str.words s).
Proof.
  induction s as [|c s IH]; [constructor|]. simpl.
  destruct (Str.isWhiteSpace c) eqn:Ec; [exact IH|].
  destruct (Str.words s) as [|w ws], s as [|c' s'];
    try (constructor; [apply isWord_cons; [exact Ec | now left] | constructor]).
  apply Forall_cons in IH as [Hw Hws].
  destruct (Str.isWhiteSpace c').
  - constructor; [apply isWord_cons; [exact Ec | now left]|]. now constructor.
  - constructor; [apply isWord_cons; [exact Ec | now right] | exact Hws].
Qed.

Lemma words_of_word (w : string) : isWord w = true -> Str.words w = [w].
Proof.
  unfold isWord. intros H. apply andb_true_iff in H as [Hne H].
  induction w as [|c w IH]; [discriminate|]. simpl in H |- *.
  apply andb_true_iff in H as [Hc H]. apply negb_true_iff in Hc. rewrite Hc.
  destruct w as [|c' w']; [reflexivity|].
  rewrite (IH eq_refl H).
  simpl in H. apply andb_true_iff in H as [Hc' _]. apply negb_true_iff in Hc'.
  now rewrite Hc'.
Qed.

Lemma words_of_word_space (w t : string) :
  isWord w = true -> Str.words (w +:+ String " " t) = w :: Str.words t.
Proof.
  unfold isWord. intros H. apply andb_true_iff in H as [Hne H].
  induction w as [|c w IH]; [discriminate|].
  simpl in H. apply andb_true_iff in H as [Hc H]. apply negb_true_iff in Hc.
  change (String c w +:+ String " " t) with (String c (w +:+ String " " t)).
  cbn [Str.words]. rewrite Hc.
  destruct w as [|c' w'].
  - change ("" +:+ String " " t) with (String " " t).
    change (Str.words (String " " t)) with (Str.words t).
    change (Str.isWhiteSpace " ") with true.
    now destruct (Str.words t).
  - rewrite (IH eq_refl H).
    change (String c' w' +:+ String " " t) with (String c' (w' +:+ String " " t)).
    simpl in H. apply andb_true_iff in H as [Hc' _]. apply negb_true_iff in Hc'.
    now rewrite Hc'.
Qed.

Lemma words_join (ws : list string) :
  Forall (fun w => isWord w = true) ws -> Str.words (Str.join " " ws) = ws.
Proof.
  unfold Str.join. induction 1 as [|w ws Hw _ IH]; [reflexivity|].
  destruct ws as [|w' ws']; [now apply words_of_word|].
  change (String.concat " " (w :: w' :: ws'))
    with (w +:+ String " " (String.concat " " (w' :: ws'))).
  now rewrite (words_of_word_space w _ Hw), IH.
Qed.

(** X8. The computed text of a record is a sequence of words with one space
    between two of them: it has no other white space and none at either
    end, and normalizing it again changes nothing. *)
Theorem computedText_is_words (doc : Document) (candidates : list ref)
    (out : list (ref * ElementRecord.t)) (r : ref) (rec : ElementRecord.t) :
  scanCandidates doc candidates = Ok out -> In (r, rec) out ->
  (exists ws,
     Text.computedText (ElementRecord.text rec) = Str.join " " ws
     /\ Forall (fun w => isWord w = true) ws)
  /\ Str.normalize (Text.computedText (ElementRecord.text rec))
     = Text.computedText (ElementRecord.text rec).
Proof.
  intros Hscan Hin.
  destruct (output_record _ _ _ _ _ Hscan Hin)
    as (e & vt & lt & _ & _ & _ & _ & _ & ->).
  cbn [assemble ElementRecord.text Text.computedText].
  unfold computedTextOf. rewrite normalize_words.
  set (source := default "" _).
  pose proof (words_are_words source) as Hws.
  split; [now exists (Str.words source)|].
  now rewrite normalize_words, words_join.
Qed.

Lemma computedText_is_words_witness :
  (exists ws,
     Text.computedText (ElementRecord.text (sampleRecord 0)) = Str.join " " ws
     /\ Forall (fun w => isWord w = true) ws)
  /\ Str.normalize (Text.computedText (ElementRecord.text (sampleRecord 0)))
     = Text.computedText (ElementRecord.text (sampleRecord 0)).
Proof.
  apply (computedText_is_words samplePage
           (querySelectorAll samplePage interactiveSelector) sampleOutput [0; 0; 1; 1]).
  - reflexivity.
  - vm_compute. tauto.
Defined.

(** ** Empty strings *)

Lemma orNull_not_empty (s : string) : orNull s <> Some "".
Proof.
  unfold orNull. destruct (String.eqb s "") eqn:E; [discriminate|].
  apply String.eqb_neq in E. congruence.
Qed.

Lemma attrOrNull_not_empty (a : option string) : attrOrNull a <> Some "".
Proof. destruct a as [s|]; [apply orNull_not_empty | discriminate]. Qed.

Lemma getXPathForElement_not_empty (doc : Document) (element : option ref) :
  getXPathForElement doc element <> Some "".
Proof.
  unfold getXPathForElement. destruct element as [r|]; [|discriminate].
  destruct (negb (String.eqb _ "")); [discriminate|].
  destruct (xpathParts doc r []); discriminate.
Qed.

(** X9. No field of a record or of its context that holds a string holds
    the empty string: an attribute that is empty is reported as null, as an
    absent one is; nor is [attributes.class] the empty string. *)
Theorem no_field_is_the_empty_string (doc : Document) (candidates : list ref)
    (out : list (ref * ElementRecord.t)) (r : ref) (rec : ElementRecord.t) :
  scanCandidates doc candidates = Ok out -> In (r, rec) out ->
  Forall (fun field => field <> Some "") (stringFields rec)
  /\ Attributes.class (ElementRecord.attributes rec) <> JStr "".
Proof.
  intros Hscan Hin.
  destruct (output_record _ _ _ _ _ Hscan Hin)
    as (e & vt & lt & _ & _ & _ & _ & _ & ->).
  split.
  - unfold stringFields.
    cbn [assemble ElementRecord.attributes ElementRecord.text ElementRecord.xpath
           ElementRecord.context Attributes.id Attributes.name Attributes.role
           Attributes.ariaLabel Attributes.placeholder Attributes.href
           Text.visibleText Text.labelText].
    apply Forall_app. split.
    + repeat constructor;
        first [apply orNull_not_empty | apply attrOrNull_not_empty
              | apply getXPathForElement_not_empty].
    + unfold getAncestorContext.
      destruct (parentElement doc r) as [parentRef|]; [|constructor].
      destruct (elementAt doc parentRef) as [parent|]; [|constructor].
      cbn [Context.id Context.role Context.ariaLabel Context.form].
      apply Forall_app. split.
      * repeat constructor; first [apply orNull_not_empty | apply attrOrNull_not_empty].
      * unfold formContext. destruct (closest doc isForm r) as [formAncestor|]; [|constructor].
        destruct (elementAt doc formAncestor) as [f|]; [|constructor].
        cbn [Form.id Form.name]. repeat constructor; apply orNull_not_empty.
  - cbn [assemble ElementRecord.attributes Attributes.class].
    destruct (className e) as [| |b|n|s|items|props|interface] eqn:Ec; cbn [truthy];
      try discriminate; try (destruct b; discriminate);
      try (destruct (negb (Z.eqb n 0)); discriminate).
    destruct (String.eqb s "") eqn:Es; cbn [negb]; [discriminate|].
    apply String.eqb_neq in Es. congruence.
Qed.

Lemma no_field_is_the_empty_string_witness :
  Forall (fun field => field <> Some "") (stringFields goRecord)
  /\ Attributes.class (ElementRecord.attributes goRecord) <> JStr "".
Proof.
  apply (no_field_is_the_empty_string samplePage
           (querySelectorAll samplePage interactiveSelector) sampleOutput [2; 1; 1]).
  - reflexivity.
  - vm_compute. tauto.
Defined.

(** ** Completion and failure *)

Lemma describe_texts (doc : Document) (r : ref) (e : Element) (o : option ElementRecord.t) :
  elementAt doc r = Some e -> isInvisible e = false -> describe doc r = Ok o ->
  exists valueText labelText,
    valueTextOf e = Ok valueText /\ labelTextOf doc r e = Ok labelText.
Proof.
  intros He Hvis. unfold describe. rewrite He, Hvis.
  destruct (valueTextOf e) as [valueText|]; [|discriminate]. simpl.
  destruct (labelTextOf doc r e) as [labelText|]; [|discriminate].
  intros _. now exists valueText, labelText.
Qed.

(** X10. On a document in which no element is named like a property the
    script reads and every id is plain, whose labels have a rendered text
    and whose visible candidates have a [value] that is a string or falsy,
    the script completes, and a candidate has a record exactly when it
    passes the filter and has an id or a first source whose normalized text
    is not empty. *)
Theorem scan_returns_the_accepted_candidates (doc : Document) :
  ordinaryDocument doc = true ->
  (forall r l, elementAt doc r = Some l -> isLabel l = true -> innerText l <> None) ->
  (forall r e, elementAt doc r = Some e -> interactiveSelector e = true ->
     passesVisibilityFilter e -> truthy (value e) = true -> exists s, value e = JStr s) ->
  exists out,
    scan doc = Ok out
    /\ forall r e,
         elementAt doc r = Some e -> interactiveSelector e = true ->
         ((exists rec, In (r, rec) out)
          <-> passesVisibilityFilter e
              /\ (elementId e <> ""
                  \/ Str.normalize (firstNonEmpty (textSources doc r e)) <> "")).
Proof.
  intros Hord Hlabels Hvalues.
  assert (Hsafe : forall r e, elementAt doc r = Some e -> interactiveSelector e = true ->
            passesVisibilityFilter e ->
            (truthy (value e) = true -> exists s, value e = JStr s)
            /\ Str.forallChars (fun c => negb (breaksQuotedString c)) (elementId e) = true).
  { intros r e He Hsel Hvis. split; [now apply (Hvalues r e)|].
    now apply (plainIds_elementAt doc r e). }
  destruct (scan_completes doc Hlabels Hsafe) as [out Hscan].
  exists out. split; [exact Hscan|]. intros r e He Hsel.
  rewrite (scan_output_iff doc out r e Hscan He Hsel). split.
  - intros (Hvis & vt & lt & Hv & Hl & Hgate). split; [exact Hvis|].
    now rewrite <- (computedTextOf_spec doc r e vt lt Hv Hl).
  - intros [Hvis Hgate]. split; [exact Hvis|].
    destruct (describe_completes doc r e Hlabels He (fun _ => Hsafe r e He Hsel Hvis))
      as [o Ho].
    destruct (describe_texts doc r e o He (proj2 (isInvisible_false e) Hvis) Ho)
      as (vt & lt & Hv & Hl).
    exists vt, lt. split; [exact Hv|]. split; [exact Hl|].
    now rewrite (computedTextOf_spec doc r e vt lt Hv Hl).
Qed.

Lemma scan_returns_the_accepted_candidates_witness :
  exists out,
    scan samplePage = Ok out
    /\ forall r e,
         elementAt samplePage r = Some e -> interactiveSelector e = true ->
         ((exists rec, In (r, rec) out)
          <-> passesVisibilityFilter e
              /\ (elementId e <> ""
                  \/ Str.normalize (firstNonEmpty (textSources samplePage r e)) <> "")).
Proof.
  apply (scan_returns_the_accepted_candidates samplePage).
  - reflexivity.
  - intros r l Hr. pose proof (allElements_complete _ _ _ Hr) as Hin.
    vm_compute in Hin.
    repeat (destruct Hin as [<-|Hin];
            [vm_compute in Hr; injection Hr as <-; vm_compute; intros; discriminate|]).
    destruct Hin.
  - intros r e Hr _ _. pose proof (allElements_complete _ _ _ Hr) as Hin.
    vm_compute in Hin.
    repeat (destruct Hin as [<-|Hin];
            [vm_compute in Hr; injection Hr as <-; vm_compute;
             intros Ht; first [discriminate Ht | eexists; reflexivity]|]).
    destruct Hin.
Defined.

Lemma collect_throws (doc : Document) (l : list ref) (err : exn) :
  collect doc l = Throw err
  <-> exists earlier r later,
        l = earlier ++ r :: later
        /\ Forall (fun x => exists o, describe doc x = Ok o) earlier
        /\ describe doc r = Throw err.
Proof.
  induction l as [|x l IH]; simpl.
  - split; [discriminate|]. intros (earlier & r & later & H & _). now destruct earlier.
  - destruct (describe doc x) as [o|e] eqn:Ex; simpl.
    + destruct (collect doc l) as [out|e'] eqn:El; simpl.
      * split; [discriminate|].
        intros (earlier & r & later & H & Hok & Hr).
        destruct earlier as [|y earlier]; simpl in H; injection H as -> ->; [congruence|].
        apply Forall_cons in Hok as [_ Hok].
        assert (C : Ok out = Throw err :> result (list (ref * ElementRecord.t)));
          [|discriminate].
        apply IH. now exists earlier, r, later.
      * split.
        -- intros [= ->]. destruct (proj1 IH eq_refl) as (earlier & r & later & -> & Hok & Hr).
           exists (x :: earlier), r, later. repeat split; [|exact Hr].
           constructor; [now exists o | exact Hok].
        -- intros (earlier & r & later & H & Hok & Hr).
           destruct earlier as [|y earlier]; simpl in H; injection H as -> ->; [congruence|].
           apply Forall_cons in Hok as [_ Hok].
           apply IH. now exists earlier, r, later.
    + split.
      * intros [= ->]. exists [], x, l. now repeat split.
      * intros (earlier & r & later & H & Hok & Hr).
        destruct earlier as [|y earlier]; simpl in H; injection H as -> ->; [congruence|].
        apply Forall_cons in Hok as [[o Ho] _]. congruence.
Qed.

(** X11. On a document in which no element is named like a property the
    script reads and every id is plain, the script ends in an exception
    exactly when the callback throws on some candidate; the exception is
    that of the first such candidate in document order, which is an element
    that passes the filter. Nothing is output then. *)
Theorem scan_throws_at_the_first_failure (doc : Document) (err : exn) :
  ordinaryDocument doc = true ->
  (scan doc = Throw err
   <-> exists earlier r later e,
         querySelectorAll doc interactiveSelector = earlier ++ r :: later
         /\ Forall (fun x => exists o, describe doc x = Ok o) earlier
         /\ describe doc r = Throw err
         /\ elementAt doc r = Some e /\ passesVisibilityFilter e).
Proof.
  intros _. unfold scan. rewrite scanCandidates_collect
    by apply sorted_NoDup, querySelectorAll_sorted.
  rewrite collect_throws. split.
  - intros (earlier & r & later & Hsplit & Hok & Hr).
    assert (Hin : In r (querySelectorAll doc interactiveSelector)).
    { rewrite Hsplit. apply in_or_app. right. now left. }
    apply querySelectorAll_spec in Hin as (e & He & _).
    exists earlier, r, later, e. repeat split; try assumption;
      apply isInvisible_false; unfold describe in Hr; rewrite He in Hr;
      now destruct (isInvisible e).
  - intros (earlier & r & later & e & Hsplit & Hok & Hr & _).
    now exists earlier, r, later.
Qed.

Lemma scan_throws_at_the_first_failure_witness :
  scan listItemPage = Throw TypeError
  <-> exists earlier r later e,
        querySelectorAll listItemPage interactiveSelector = earlier ++ r :: later
        /\ Forall (fun x => exists o, describe listItemPage x = Ok o) earlier
        /\ describe listItemPage r = Throw TypeError
        /\ elementAt listItemPage r = Some e /\ passesVisibilityFilter e.
Proof.
  apply (scan_throws_at_the_first_failure listItemPage TypeError). reflexivity.
Defined.



(** ** More on the paths *)

Lemma positional_path_selects (doc : Document) (r : ref) (e : Element) :
  parsedNames doc = true -> htmlChain doc r = true ->
  elementAt doc r = Some e -> elementId e = "" ->
  exists text, getXPathForElement doc (Some r) = Some text /\ evaluate doc text = Some [r].
Proof.
  intros H Hr He Hid. exists (renderPath (stepsOf doc r)).
  assert (Hne : stepsOf doc r <> []).
  { destruct r as [|i p]; [discriminate|]. cbn [stepsOf]. rewrite He.
    intros C. apply app_eq_nil in C as [_ C]. discriminate. }
  split.
  - unfold getXPathForElement, renderPath. rewrite He, Hid. simpl.
    rewrite xpathParts_stepsOf, app_nil_r.
    destruct (map renderStep (stepsOf doc r)) eqn:E; [|reflexivity].
    apply map_eq_nil in E. contradiction.
  - unfold evaluate.
    rewrite (parsePath_renderPath _ Hne (stepsOf_readable doc r H Hr)).
    now rewrite evalPath_stepsOf.
Qed.

(** X13. In a document in which no element is named like a property the
    script reads, whose HTML elements have names of ASCII letters, digits,
    hyphens, low lines and full stops after a first letter and whose other
    elements have a namespace and a name that is no such name in upper case,
    two different HTML elements without an id, whose ancestors are HTML
    elements, get two different paths. *)
Theorem different_elements_different_paths (doc : Document) (r1 r2 : ref) (e1 e2 : Element) :
  unshadowed doc = true ->
  parsedNames doc = true ->
  htmlChain doc r1 = true -> htmlChain doc r2 = true ->
  elementAt doc r1 = Some e1 -> elementAt doc r2 = Some e2 ->
  elementId e1 = "" -> elementId e2 = "" ->
  r1 <> r2 ->
  exists path1 path2,
    getXPathForElement doc (Some r1) = Some path1
    /\ getXPathForElement doc (Some r2) = Some path2
    /\ path1 <> path2.
Proof.
  intros _ H Hr1 Hr2 He1 He2 Hid1 Hid2 Hne.
  destruct (positional_path_selects doc r1 e1 H Hr1 He1 Hid1) as (t1 & Hx1 & Hv1).
  destruct (positional_path_selects doc r2 e2 H Hr2 He2 Hid2) as (t2 & Hx2 & Hv2).
  exists t1, t2. split; [exact Hx1|]. split; [exact Hx2|].
  intros ->. rewrite Hv1 in Hv2. injection Hv2 as ->. now apply Hne.
Qed.

Lemma different_elements_different_paths_witness :
  exists path1 path2,
    getXPathForElement samplePage (Some [0; 1; 1; 1]) = Some path1
    /\ getXPathForElement samplePage (Some [3; 1; 1; 1]) = Some path2
    /\ path1 <> path2.
Proof.
  apply (different_elements_different_paths samplePage [0; 1; 1; 1] [3; 1; 1; 1]
           (sampleElement [0; 1; 1; 1]) (sampleElement [3; 1; 1; 1]));
    try reflexivity.
  discriminate.
Defined.

Lemma append_assoc (a b c : string) : a +:+ b +:+ c = (a +:+ b) +:+ c.
Proof.
  induction a as [|x a IH]; [reflexivity|].
  change (String x (a +:+ b +:+ c) = String x ((a +:+ b) +:+ c)). now f_equal.
Qed.

Lemma join_snoc (sep : string) (l : list string) (part : string) :
  l <> [] -> Str.join sep (l ++ [part]) = Str.join sep l +:+ sep +:+ part.
Proof.
  unfold Str.join. induction l as [|a l IH]; intros Hne; [contradiction|].
  destruct l as [|b l]; [reflexivity|].
  change (String.concat sep ((a :: b :: l) ++ [part]))
    with (a +:+ sep +:+ String.concat sep ((b :: l) ++ [part])).
  rewrite IH by discriminate.
  change (String.concat sep (a :: b :: l)) with (a +:+ sep +:+ String.concat sep (b :: l)).
  now rewrite <- !append_assoc.
Qed.

(** X14. On a document in which no element is named like a property the
    script reads, the path of an element without an id is the positional
    path of its parent, a "/" and the segment of the element, whether or not
    the parent has an id: the id shortcut is taken for the element itself
    only. The positional path of a parent without an id is its path. *)
Theorem xpath_extends_the_path_of_the_parent (doc : Document) (i : nat) (p : ref)
    (e parent : Element) :
  unshadowed doc = true ->
  elementAt doc (i :: p) = Some e -> elementId e = "" ->
  elementAt doc p = Some parent ->
  getXPathForElement doc (Some (i :: p))
  = Some (positionalPath doc p +:+ "/" +:+ xpathPart doc (i :: p) e)
  /\ (elementId parent = "" ->
      getXPathForElement doc (Some p) = Some (positionalPath doc p)).
Proof.
  intros _ He Hid Hp.
  assert (Hparts : xpathParts doc p [] <> []).
  { intros C. apply xpathParts_empty in C. congruence. }
  split.
  - unfold getXPathForElement, positionalPath. rewrite He, Hid. simpl negb. cbv iota.
    assert (Hx : xpathParts doc (i :: p) [] = xpathParts doc p [] ++ [xpathPart doc (i :: p) e]).
    { cbn [xpathParts]. unfold elementAt in He.
      destruct (nodeAt doc (i :: p)) as [[e' cs| | | |]|]; try discriminate.
      injection He as ->. now rewrite !xpathParts_stepsOf, app_nil_r. }
    rewrite Hx.
    destruct (xpathParts doc p [] ++ [xpathPart doc (i :: p) e]) eqn:E.
    + apply app_eq_nil in E as [_ E]. discriminate.
    + rewrite <- E, join_snoc by exact Hparts. reflexivity.
  - intros Hpid. unfold getXPathForElement, positionalPath. rewrite Hp, Hpid. simpl.
    now destruct (xpathParts doc p []).
Qed.

Lemma xpath_extends_the_path_of_the_parent_witness :
  getXPathForElement samplePage (Some [3; 1; 1; 1])
  = Some (positionalPath samplePage [1; 1; 1] +:+ "/"
          +:+ xpathPart samplePage [3; 1; 1; 1] (sampleElement [3; 1; 1; 1]))
  /\ (elementId (sampleElement [1; 1; 1]) = "" ->
      getXPathForElement samplePage (Some [1; 1; 1])
      = Some (positionalPath samplePage [1; 1; 1])).
Proof.
  apply (xpath_extends_the_path_of_the_parent samplePage 3 [1; 1; 1]).
  - reflexivity.
  - reflexivity.
  - reflexivity.
  - reflexivity.
Defined.

(** ** The id shortcut, evaluated *)

Lemma stripPrefix_app (prefix s : string) : stripPrefix prefix (prefix +:+ s) = Some s.
Proof.
  induction prefix as [|a prefix IH]; [reflexivity|].
  change (String a prefix +:+ s) with (String a (prefix +:+ s)).
  cbn [stripPrefix]. now rewrite Ascii.eqb_refl.
Qed.

Lemma parseIdShortcut_shortcut (id : string) :
  Str.forallChars (isNot "'") id = true ->
  parseIdShortcut ("//*[@id='" +:+ id +:+ "']") = Some id.
Proof.
  intros Hid. unfold parseIdShortcut. rewrite stripPrefix_app.
  change (id +:+ "']") with (id +:+ String "'" "]").
  now rewrite (splitAt_app "'" id "]" Hid).
Qed.

Lemma only_member {A : Type} (l : list A) (a : A) :
  NoDup l -> In a l -> (forall x, In x l -> x = a) -> l = [a].
Proof.
  intros Hnd Hin Hall. destruct l as [|x l]; [destruct Hin|].
  assert (x = a) as -> by (apply Hall; now left).
  destruct l as [|y l]; [reflexivity|].
  assert (y = a) as -> by (apply Hall; right; now left).
  apply NoDup_cons in Hnd as [Hnd _]. exfalso. apply Hnd. now left.
Qed.

(** X15. On a document in which no element is named like a property the
    script reads, for an element with an id that is not empty and holds no
    apostrophe, the path is the id shortcut, and the host finds for it every
    element of the document with that id, the element among them: the path
    selects the element and nothing else exactly when no other element of
    the document has the same id. *)
Theorem id_shortcut_selects_elements_of_that_id (doc : Document) (r : ref) (e : Element) :
  unshadowed doc = true ->
  elementAt doc r = Some e -> elementId e <> "" ->
  Str.forallChars (isNot "'") (elementId e) = true ->
  exists text found,
    getXPathForElement doc (Some r) = Some text
    /\ evaluateIdShortcut doc text = Some found
    /\ In r found
    /\ (forall r', In r' found
                   <-> exists e', elementAt doc r' = Some e' /\ elementId e' = elementId e)
    /\ (found = [r]
        <-> forall r' e',
              elementAt doc r' = Some e' -> elementId e' = elementId e -> r' = r).
Proof.
  intros _ He Hid Hquote.
  set (found := List.filter (matchesAt doc (hasId (elementId e))) (allElements doc)).
  assert (Hfound : forall r', In r' found
            <-> exists e', elementAt doc r' = Some e' /\ elementId e' = elementId e).
  { intros r'. unfold found. rewrite List.filter_In. unfold matchesAt, hasId, elementId.
    split.
    - intros [_ H]. destruct (elementAt doc r') as [e'|]; [|discriminate].
      exists e'. split; [reflexivity|].
      destruct (getAttribute e' "id") as [v|]; [|discriminate].
      now apply String.eqb_eq in H as ->.
    - intros (e' & He' & Heq). split; [now apply (allElements_complete doc r' e')|].
      rewrite He'. unfold elementId in Hid.
      destruct (getAttribute e' "id") as [v|]; simpl in Heq.
      + rewrite Heq. apply String.eqb_refl.
      + now rewrite <- Heq in Hid. }
  assert (Hin : In r found) by (apply Hfound; now exists e).
  exists ("//*[@id='" +:+ elementId e +:+ "']"), found.
  split; [|split; [|split; [exact Hin|split; [exact Hfound|]]]].
  - unfold getXPathForElement. rewrite He.
    apply String.eqb_neq in Hid. now rewrite Hid.
  - unfold evaluateIdShortcut. now rewrite (parseIdShortcut_shortcut _ Hquote).
  - split.
    + intros Heq r' e' He' Hsame.
      assert (Hr' : In r' found) by (apply Hfound; now exists e').
      rewrite Heq in Hr'. now destruct Hr' as [<-|[]].
    + intros Hunique. apply only_member; [|exact Hin|].
      * exact (sublist_NoDup _ _ (sorted_NoDup _ (allElements_sorted doc))
                 (filter_sublist _ _)).
      * intros x Hx. apply Hfound in Hx as (e' & He' & Hsame).
        now apply (Hunique x e').
Qed.

Lemma id_shortcut_selects_elements_of_that_id_witness :
  exists text found,
    getXPathForElement samplePage (Some [3; 0; 1; 1]) = Some text
    /\ evaluateIdShortcut samplePage text = Some found
    /\ In [3; 0; 1; 1] found
    /\ (forall r', In r' found
                   <-> exists e', elementAt samplePage r' = Some e'
                                  /\ elementId e' = elementId (sampleElement [3; 0; 1; 1]))
    /\ (found = [[3; 0; 1; 1]]
        <-> forall r' e',
              elementAt samplePage r' = Some e' ->
              elementId e' = elementId (sampleElement [3; 0; 1; 1]) -> r' = [3; 0; 1; 1]).
Proof.
  apply (id_shortcut_selects_elements_of_that_id samplePage [3; 0; 1; 1]
           (sampleElement [3; 0; 1; 1])).
  - reflexivity.
  - reflexivity.
  - vm_compute. discriminate.
  - reflexivity.
Defined.
